(** * separa_livro: splitting a PDF by its bookmarks

    A shallow embedding of [separa_livro.py] and the proofs of its
    specification.  The three parts of the program with a policy of their
    own are embedded:

    - [get_bookmarks]: the depth-limited flattening of the outline tree;
    - [sanitize_file_name]: the file-name sanitizer;
    - [separate_by_bookmark]: the page ranges, the keyword filter and the
      dry-run / materialize effects;

    and, with them, the driver [main] that checks the paths and runs the
    extractor and the splitter.

    Python [int] is [Z], Python [str] is [string] (every operation of the
    program on strings works character by character, and every character
    it tests for or inserts is an ASCII one), Python lists are [list].
    The PDF library is an external collaborator: a [PdfReader] record gives
    the pages and the destination lookup. *)

From Stdlib Require Import ZArith List String Ascii Bool Lia.
From Stdlib Require Import Numbers.DecimalString.
Import ListNotations.

Local Open Scope string_scope.
Local Open Scope list_scope.
Local Open Scope Z_scope.

Set Implicit Arguments.

(* ===================================================================== *)
(** * Data model *)
(* ===================================================================== *)

(** A page of the source document (its content is never inspected). *)
Definition Page := nat.

(** An outline entry of the PDF library: a title and an opaque reference
    that the library resolves to a page index. *)
Record Destination := mkDestination {
  title : string;
  page_ref : nat
}.

(** The outline of a document is a nested Python list: an item is either a
    destination or a list of items ([isinstance(outline, list)]). *)
Unset Elimination Schemes.
Inductive Outline : Type :=
| Leaf (d : Destination)
| Group (sub : list Outline).
Set Elimination Schemes.

(** [PyPDF2.PdfReader], as far as the program uses it. *)
Record PdfReader := mkPdfReader {
  pages : list Page;
  get_destination_page_number : Destination -> Z
}.

(** A bookmark: [(title, page number)]. *)
Definition Bookmark := (string * Z)%type.

(* ===================================================================== *)
(** * Bookmark extractor: [get_bookmarks] *)
(* ===================================================================== *)

(** The body of the loop of [get_bookmarks] for one item.  The Python code
    appends to the list [bookmarks] it was given; here the list is threaded
    through.  The nested call on a sub-list is the fold over its items. *)
Fixpoint visit_outline (pdf_reader : PdfReader) (outline : Outline)
         (depth : Z) (bookmarks : list Bookmark) {struct outline}
  : list Bookmark :=
  match outline with
  | Group sub =>
      if depth >? 0 then
        fold_left (fun bs o => visit_outline pdf_reader o (depth - 1) bs)
                  sub bookmarks
      else if depth =? -1 then
        fold_left (fun bs o => visit_outline pdf_reader o depth bs)
                  sub bookmarks
      else bookmarks
  | Leaf d =>
      if depth <? 1 then
        bookmarks ++ [(title d, get_destination_page_number pdf_reader d)]
      else bookmarks
  end.

(** [get_bookmarks(pdf_reader, outlines, bookmarks, depth)]: the value of
    the list [bookmarks] when the call returns. *)
Definition get_bookmarks (pdf_reader : PdfReader) (outlines : list Outline)
           (bookmarks : list Bookmark) (depth : Z) : list Bookmark :=
  fold_left (fun bs o => visit_outline pdf_reader o depth bs)
            outlines bookmarks.

(** ** Reference functions on outline trees, from the specification *)

(** The bookmark of a leaf. *)
Definition bookmark_of (pdf_reader : PdfReader) (d : Destination) : Bookmark :=
  (title d, get_destination_page_number pdf_reader d).

(** Every leaf of an item, depth first, left to right. *)
Fixpoint leaves_of (o : Outline) : list Destination :=
  match o with
  | Leaf d => [d]
  | Group sub => flat_map leaves_of sub
  end.

Definition all_leaves (outlines : list Outline) : list Destination :=
  flat_map leaves_of outlines.

(** The number of leaf nodes of an item and of a tree. *)
Fixpoint leaf_count (o : Outline) : nat :=
  match o with
  | Leaf _ => 1%nat
  | Group sub => list_sum (map leaf_count sub)
  end.

Definition total_leaf_count (outlines : list Outline) : nat :=
  list_sum (map leaf_count outlines).

(** The leaves that are items of the list itself. *)
Definition top_level_leaves (outlines : list Outline) : list Destination :=
  flat_map (fun o => match o with Leaf d => [d] | Group _ => [] end) outlines.

(** The leaves found exactly [n] groups below the item's list. *)
Fixpoint leaves_at_level (n : nat) (o : Outline) {struct o}
  : list Destination :=
  match o with
  | Leaf d => match n with O => [d] | S _ => [] end
  | Group sub =>
      match n with
      | O => []
      | S n' => flat_map (leaves_at_level n') sub
      end
  end.

(** The leaves found at most [n] groups below the item's list: what a
    traversal that keeps the leaves of every level it visits would give. *)
Fixpoint leaves_up_to_level (n : nat) (o : Outline) {struct o}
  : list Destination :=
  match o with
  | Leaf d => [d]
  | Group sub =>
      match n with
      | O => []
      | S n' => flat_map (leaves_up_to_level n') sub
      end
  end.

(* ===================================================================== *)
(** * Name sanitizer: [sanitize_file_name] *)
(* ===================================================================== *)

Definition backslash : ascii := ascii_of_nat 92.
Definition double_quote : ascii := ascii_of_nat 34.
Definition space : ascii := ascii_of_nat 32.

(** The character class of the pattern [invalid_chars]: backslash, slash,
    colon, star, question mark, double quote, angle brackets, bar. *)
Definition invalid_chars : list ascii :=
  [backslash; "/"%char; ":"%char; "*"%char; "?"%char; double_quote;
   "<"%char; ">"%char; "|"%char].

Definition is_invalid_char (c : ascii) : bool :=
  existsb (Ascii.eqb c) invalid_chars.

(** [re.sub(invalid_chars, replacement, input_string)]: every character of
    the class is replaced.  [re.sub] reads [replacement] as a template, which
    stands for itself when it has no backslash; the model covers such
    replacements, the default ["_"] among them. *)
Fixpoint re_sub_invalid_chars (replacement input_string : string) : string :=
  match input_string with
  | EmptyString => EmptyString
  | String c rest =>
      if is_invalid_char c
      then (replacement ++ re_sub_invalid_chars replacement rest)%string
      else String c (re_sub_invalid_chars replacement rest)
  end.

(** [s.replace(old, new)] for a one-character [old]. *)
Fixpoint str_replace (old : ascii) (new : string) (s : string) : string :=
  match s with
  | EmptyString => EmptyString
  | String c rest =>
      if Ascii.eqb c old
      then (new ++ str_replace old new rest)%string
      else String c (str_replace old new rest)
  end.

(** The slice [s[:m]] of Python: a negative [m] counts from the end. *)
Definition slice_to (m : Z) (s : string) : string :=
  let n := Z.of_nat (String.length s) in
  let stop := if m <? 0 then Z.max 0 (n + m) else Z.min m n in
  substring 0 (Z.to_nat stop) s.

Definition sanitize_file_name (input_string : string) (replacement : string)
           (max_length : option Z) : string :=
  let sanitized_string := re_sub_invalid_chars replacement input_string in
  let sanitized_string := str_replace space replacement sanitized_string in
  match max_length with
  | Some m =>
      if Z.of_nat (String.length sanitized_string) >? m
      then slice_to m sanitized_string
      else sanitized_string
  | None => sanitized_string
  end.

(** The default values of the keyword arguments. *)
Definition default_replacement : string := "_".
Definition default_max_length : option Z := None.

(** [sanitize_file_name(s)], with the defaults. *)
Definition sanitize (s : string) : string :=
  sanitize_file_name s default_replacement default_max_length.

(** What the default settings do to one character. *)
Definition sanitize_char (c : ascii) : ascii :=
  if is_invalid_char c || Ascii.eqb c space then "_"%char else c.

(** The characters of a string. *)
Definition chars (s : string) : list ascii := list_ascii_of_string s.

(* ===================================================================== *)
(** * Section splitter: [separate_by_bookmark] *)
(* ===================================================================== *)

(** ** Effects *)

(** What a run does to the outside: lines printed on the standard output
    and files written (the pages given to the writer, in order). *)
Inductive Event : Type :=
| Printed (line : string)
| Written (path : string) (content : list Page).

(** The exceptions of the calls the loop makes: an index outside
    [pdf_reader.pages], a file that cannot be opened for writing.  None is
    caught: the run stops at the first one. *)
Inductive Exception : Type :=
| IndexError
| OSError.

Inductive Outcome (A : Type) : Type :=
| Returned (a : A)
| Raised (e : Exception).
Arguments Returned {A} a.
Arguments Raised {A} e.

(** A computation: the events it caused, then how it ended. *)
Definition IO (A : Type) : Type := (list Event * Outcome A)%type.

Definition ret {A : Type} (a : A) : IO A := ([], Returned a).

Definition raise {A : Type} (e : Exception) : IO A := ([], Raised e).

Definition bind {A B : Type} (m : IO A) (k : A -> IO B) : IO B :=
  match m with
  | (t, Returned a) => let (t', r) := k a in (t ++ t', r)
  | (t, Raised e) => (t, Raised e)
  end.

Notation "x <- m ;; k" := (bind m (fun x => k))
  (at level 61, m at next level, right associativity).
Notation "m ;; k" := (bind m (fun _ => k))
  (at level 61, right associativity).

Definition print (line : string) : IO unit := ([Printed line], Returned tt).

(** ** Helpers of the loop body *)

(** [str(n)] for an integer, as an f-string formats it. *)
Definition str_of_int (n : Z) : string :=
  NilZero.string_of_int (Z.to_int n).

(** [key in title]: [key] occurs in [title] as a contiguous run. *)
Fixpoint str_in (key title : string) : bool :=
  prefix key title ||
  match title with
  | EmptyString => false
  | String _ rest => str_in key rest
  end.

(** The truth value of a string: it is not empty. *)
Definition truthy (s : string) : bool :=
  match s with EmptyString => false | String _ _ => true end.

(** [range(a, b)]. *)
Definition range (a b : Z) : list Z :=
  map (fun k => a + Z.of_nat k) (seq 0 (Z.to_nat (b - a))).

(** [pdf_reader.pages[index]]: a negative index counts from the end, an
    index outside the list raises [IndexError]. *)
Definition pages_getitem (pdf_reader : PdfReader) (index : Z) : IO Page :=
  let len_self := Z.of_nat (List.length (pages pdf_reader)) in
  let index := if index <? 0 then len_self + index else index in
  if (index <? 0) || (index >=? len_self) then raise IndexError
  else match nth_error (pages pdf_reader) (Z.to_nat index) with
       | Some p => ret p
       | None => raise IndexError
       end.

(** The loop [for page_num in range(...): pdf_writer.add_page(...)]; the
    writer is the list of the pages added so far. *)
Fixpoint add_pages (pdf_reader : PdfReader) (page_nums : list Z)
         (pdf_writer : list Page) : IO (list Page) :=
  match page_nums with
  | [] => ret pdf_writer
  | page_num :: more =>
      p <- pages_getitem pdf_reader page_num ;;
      add_pages pdf_reader more (pdf_writer ++ [p])
  end.

(** [os.path.join(a, b)] of two components, on a POSIX system. *)
Fixpoint ends_with (c : ascii) (s : string) : bool :=
  match s with
  | EmptyString => false
  | String x EmptyString => Ascii.eqb x c
  | String _ rest => ends_with c rest
  end.

Definition os_path_join (a b : string) : string :=
  if prefix "/" b then b
  else if negb (truthy a) || ends_with "/"%char a then (a ++ b)%string
  else (a ++ "/" ++ b)%string.

(** ** The loop of [separate_by_bookmark] *)

Section Splitter.

(** The world outside the program: whether [open(path, "wb")] succeeds. *)
Variable open_ok : string -> bool.

(** [with open(path, "wb") as f: pdf_writer.write(f)].  [open] either
    raises [OSError], the file untouched, or returns; the write to the
    file it returned is taken to complete (a write that fails half way,
    leaving a truncated file, is outside the model). *)
Definition write_pdf (path : string) (pdf_writer : list Page) : IO unit :=
  if open_ok path then ([Written path pdf_writer], Returned tt)
  else raise OSError.

Variable pdf_reader : PdfReader.
Variable bookmarks : list Bookmark.
Variable key : string.
Variable output_path : string.
Variable mock : bool.

(** [bookmarks[i + 1][1] if i + 1 < len(bookmarks) else
    len(pdf_reader.pages)]. *)
Definition end_page_of (i : nat) : Z :=
  if (i + 1 <? List.length bookmarks)%nat
  then snd (nth (i + 1) bookmarks (EmptyString, 0))
  else Z.of_nat (List.length (pages pdf_reader)).

(** [not key or key in title]. *)
Definition selected (title : string) : bool :=
  negb (truthy key) || str_in key title.

(** The file name of a section, before the output directory is joined. *)
Definition output_file_name (title : string) : string :=
  let output_filename := (str_replace space "_" title ++ ".pdf")%string in
  sanitize_file_name output_filename default_replacement default_max_length.

(** The four [print] calls of a mock run. *)
Definition report (title : string) (start_page end_page : Z) : IO unit :=
  print ("Title: " ++ title)%string ;;
  print ("Start page: " ++ str_of_int start_page)%string ;;
  print ("End page: " ++ str_of_int end_page)%string ;;
  print EmptyString.

(** The branch that writes the section to a file of its own. *)
Definition materialize (title : string) (start_page end_page : Z)
  : IO unit :=
  pdf_writer <- add_pages pdf_reader (range start_page end_page) [] ;;
  let output_filename := output_file_name title in
  let output_filename :=
    if truthy output_path
    then os_path_join output_path output_filename
    else output_filename in
  write_pdf output_filename pdf_writer ;;
  print ("Created: " ++ output_filename)%string.

(** The body of the loop for the bookmark [(title, start_page)] at
    index [i]. *)
Definition process_bookmark (i : nat) (title : string) (start_page : Z)
  : IO unit :=
  let end_page := end_page_of i in
  if selected title then
    if mock then report title start_page end_page
    else materialize title start_page end_page
  else ret tt.

(** [for i, (title, start_page) in enumerate(...)], from index [i] on. *)
Fixpoint enumerate_from (i : nat) (rest : list Bookmark) : IO unit :=
  match rest with
  | [] => ret tt
  | (title, start_page) :: rest' =>
      process_bookmark i title start_page ;;
      enumerate_from (S i) rest'
  end.

Definition separate_by_bookmark : IO unit :=
  enumerate_from 0 bookmarks.

End Splitter.

(** ** Reference functions on bookmark lists, from the specification *)

(** The section of a bookmark: title, first page, page after the last. *)
Definition SectionRange := (string * Z * Z)%type.

(** [key] is a substring of [title]. *)
Definition substring_of (key title : string) : Prop :=
  exists before after, title = (before ++ key ++ after)%string.

(** The events of a mock run for one section. *)
Definition report_events (s : SectionRange) : list Event :=
  let '(t, a, b) := s in
  [Printed ("Title: " ++ t)%string;
   Printed ("Start page: " ++ str_of_int a)%string;
   Printed ("End page: " ++ str_of_int b)%string;
   Printed EmptyString].

(** The sections of a bookmark list in a document of [total_pages] pages:
    each one ends where the next one starts, the last one at the end of the
    document. *)
Fixpoint sections (total_pages : Z) (bookmarks : list Bookmark)
  : list SectionRange :=
  match bookmarks with
  | [] => []
  | (t, a) :: rest =>
      (t, a, match rest with
             | [] => total_pages
             | (_, b) :: _ => b
             end) :: sections total_pages rest
  end.

(** Running a body over a list, in order, until an exception is raised. *)
Fixpoint for_each {A : Type} (l : list A) (body : A -> IO unit) : IO unit :=
  match l with
  | [] => ret tt
  | x :: l' => body x ;; for_each l' body
  end.

(** What the loop does with one section that passed the filter. *)
Definition process_section (open_ok : string -> bool) (pdf_reader : PdfReader)
           (output_path : string) (mock : bool) (s : SectionRange) : IO unit :=
  let '(t, a, b) := s in
  if mock then report t a b
  else materialize open_ok pdf_reader output_path t a b.

(** The number of pages of the document. *)
Definition total_pages (pdf_reader : PdfReader) : Z :=
  Z.of_nat (List.length (pages pdf_reader)).

(* ===================================================================== *)
(** * Induction on outline trees *)
(* ===================================================================== *)

Section OutlineInd.

Variable P : Outline -> Prop.
Hypothesis P_leaf : forall d, P (Leaf d).
Hypothesis P_group : forall sub, Forall P sub -> P (Group sub).

Fixpoint Outline_ind (o : Outline) : P o :=
  match o with
  | Leaf d => P_leaf d
  | Group sub =>
      P_group
        ((fix all (l : list Outline) : Forall P l :=
            match l with
            | [] => Forall_nil P
            | x :: l' => Forall_cons x (Outline_ind x) (all l')
            end) sub)
  end.

End OutlineInd.

(* ===================================================================== *)
(** * Sample documents *)
(* ===================================================================== *)

(** A reader of a 15-page document whose destinations resolve to their own
    reference. *)
Definition sample_reader : PdfReader :=
  mkPdfReader (seq 0 15) (fun d => Z.of_nat (page_ref d)).

Definition intro : Destination := mkDestination "Intro" 0.
Definition part1 : Destination := mkDestination "Part 1" 3.
Definition chap1 : Destination := mkDestination "Chapter 1" 3.
Definition sect1 : Destination := mkDestination "Section 1.1" 4.
Definition chap2 : Destination := mkDestination "Chapter 2" 10.

(** Intro, Part 1 with two chapters below it (the first with a section of
    its own), in the nested-list shape of the PDF library. *)
Definition sample_outlines : list Outline :=
  [Leaf intro; Leaf part1;
   Group [Leaf chap1; Group [Leaf sect1]; Leaf chap2]].

Definition sample_bookmarks : list Bookmark :=
  [("Intro", 0); ("Chapter 1", 3); ("Chapter 2", 10)].

Definition always_open : string -> bool := fun _ => true.

(* ===================================================================== *)
(** * Vocabulary for the further properties *)
(* ===================================================================== *)

(** ** Strings *)

(** A character the sanitizer leaves alone: not reserved, not a space. *)
Definition clean_char (c : ascii) : bool :=
  negb (is_invalid_char c) && negb (Ascii.eqb c space).

Definition clean (s : string) : bool := forallb clean_char (chars s).

(** A replacement that [re.sub] takes as it is written: it has no
    backslash, the only character that the template syntax treats
    specially.  On these (and only on these) [re_sub_invalid_chars] is
    [re.sub]; with a backslash the call may raise [re.error] or insert
    other text. *)
Definition no_backslash (replacement : string) : bool :=
  forallb (fun c => negb (Ascii.eqb c backslash)) (chars replacement).

(** ** Outline trees *)

Definition is_leaf (o : Outline) : bool :=
  match o with Leaf _ => true | Group _ => false end.

(** [l1] is [l2] with some elements left out, the order kept. *)
Inductive Subseq (A : Type) : list A -> list A -> Prop :=
| Subseq_nil : Subseq [] []
| Subseq_skip x l1 l2 : Subseq l1 l2 -> Subseq l1 (x :: l2)
| Subseq_take x l1 l2 : Subseq l1 l2 -> Subseq (x :: l1) (x :: l2).

(** ** Pages and events *)

(** The pages [l[a:b]] for [0 <= a]. *)
Definition slice (A : Type) (l : list A) (a b : Z) : list A :=
  firstn (Z.to_nat (b - a)) (skipn (Z.to_nat a) l).

(** The start pages never decrease, from [lo] up to [hi]. *)
Fixpoint well_ordered (lo : Z) (bookmarks : list Bookmark) (hi : Z) : bool :=
  match bookmarks with
  | [] => lo <=? hi
  | (_, a) :: rest => (lo <=? a) && well_ordered a rest hi
  end.

(** The path [materialize] opens for a title. *)
Definition section_path (output_path title : string) : string :=
  if truthy output_path
  then os_path_join output_path (output_file_name title)
  else output_file_name title.

(** The paths of the files written, in order. *)
Definition written_paths (events : list Event) : list string :=
  flat_map (fun e => match e with
                     | Written path _ => [path]
                     | Printed _ => []
                     end) events.

(** The content of the file at [path] once the events have happened: that
    of the last write to the path ([open(path, "wb")] truncates), none when
    the path was never written.  A file is identified by its path. *)
Fixpoint file_after (events : list Event) (path : string)
  : option (list Page) :=
  match events with
  | [] => None
  | e :: later =>
      match file_after later path with
      | Some content => Some content
      | None =>
          match e with
          | Written p content =>
              if String.eqb p path then Some content else None
          | Printed _ => None
          end
      end
  end.

(** The pages read back from the file of each title, in the order of the
    titles (no page for a title whose file does not exist). *)
Definition pages_read_back (events : list Event) (output_path : string)
           (titles : list string) : list Page :=
  flat_map (fun t => match file_after events (section_path output_path t) with
                     | Some content => content
                     | None => []
                     end) titles.

(** The events of a section written without exception: its file with the
    pages of its range, then the line that reports it. *)
Definition materialize_events (pdf_reader : PdfReader) (output_path : string)
           (s : SectionRange) : list Event :=
  let '(t, a, b) := s in
  [Written (section_path output_path t) (slice (pages pdf_reader) a b);
   Printed ("Created: " ++ section_path output_path t)%string].

(* ===================================================================== *)
(** * The driver: [main] *)
(* ===================================================================== *)

(** The parsed command line, [args]. *)
Record Args := mkArgs {
  arg_mock : bool;
  arg_depth : Z;
  arg_key : string;
  arg_output : string;
  arg_pdf_path : string
}.

(** The defaults of the parser for the options. *)
Definition default_args (pdf_path : string) : Args :=
  mkArgs false (-1) EmptyString EmptyString pdf_path.

(** The file system and the PDF library, as [main] meets them:
    [os.path.isfile], [os.path.isdir], whether [os.makedirs] returns
    rather than raising [OSError], the reader that [PyPDF2.PdfReader]
    builds for a path with its [outline], whether [open(path, "wb")]
    succeeds. *)
Record World := mkWorld {
  isfile : string -> bool;
  isdir : string -> bool;
  makedirs_ok : string -> bool;
  read_pdf : string -> PdfReader * list Outline;
  can_open : string -> bool
}.

(** What [main] does to the outside: a call of [os.makedirs] that returned
    (the directory and its missing parents exist afterwards), a call that
    raised [OSError] (some of the parents may have been created before it
    did), or an event of the loop. *)
Inductive MainEvent : Type :=
| MakeDirs (path : string)
| MakeDirsFailed (path : string)
| Out (e : Event).

(** The last four lines of [main]. *)
Definition split_document (w : World) (args : Args) : IO unit :=
  let (pdf_reader, outlines) := read_pdf w (arg_pdf_path args) in
  let bookmarks := get_bookmarks pdf_reader outlines [] (arg_depth args) in
  separate_by_bookmark (can_open w) pdf_reader bookmarks
                       (arg_key args) (arg_output args) (arg_mock args).

Definition main (w : World) (args : Args) : list MainEvent * Outcome unit :=
  if negb (isfile w (arg_pdf_path args)) then
    ([Out (Printed "Invalid PDF path")], Returned tt)
  else if negb (isdir w (arg_output args)) && truthy (arg_output args) then
    if makedirs_ok w (arg_output args) then
      let (events, outcome) := split_document w args in
      (MakeDirs (arg_output args) :: map Out events, outcome)
    else ([MakeDirsFailed (arg_output args);
           Out (Printed "Invalid output path")], Returned tt)
  else
    let (events, outcome) := split_document w args in
    (map Out events, outcome).

(** A world where the sample document is at "book.pdf" and the directory
    "out" does not exist yet. *)
Definition sample_world : World :=
  mkWorld (fun p => String.eqb p "book.pdf") (fun _ => false)
          (fun _ => true) (fun _ => (sample_reader, sample_outlines))
          (fun _ => true).

(* ===================================================================== *)
(** * The bookmark extractor *)
(* ===================================================================== *)

Section Extractor.

Variable r : PdfReader.

Lemma get_bookmarks_nil bs depth : get_bookmarks r [] bs depth = bs.
Proof. reflexivity. Qed.

Lemma get_bookmarks_cons o outlines bs depth :
  get_bookmarks r (o :: outlines) bs depth
  = get_bookmarks r outlines (visit_outline r o depth bs) depth.
Proof. reflexivity. Qed.

(** The call on a group is the recursive call of the source. *)
Lemma visit_group sub depth bs :
  visit_outline r (Group sub) depth bs
  = if depth >? 0 then get_bookmarks r sub bs (depth - 1)
    else if depth =? -1 then get_bookmarks r sub bs depth
    else bs.
Proof. reflexivity. Qed.

Lemma visit_leaf d depth bs :
  visit_outline r (Leaf d) depth bs
  = if depth <? 1 then bs ++ [bookmark_of r d] else bs.
Proof. reflexivity. Qed.

(** When every item of a list only appends the bookmarks of the leaves
    that [pick] chooses in it, so does the loop over the list. *)
Lemma get_bookmarks_appends (pick : Outline -> list Destination) depth :
  forall outlines,
    Forall (fun o => forall bs,
                visit_outline r o depth bs
                = bs ++ map (bookmark_of r) (pick o)) outlines ->
    forall bs,
      get_bookmarks r outlines bs depth
      = bs ++ map (bookmark_of r) (flat_map pick outlines).
Proof.
  induction 1 as [|o outlines Ho _ IH]; intros bs.
  - simpl. now rewrite app_nil_r.
  - rewrite get_bookmarks_cons, IH, Ho. simpl.
    now rewrite map_app, app_assoc.
Qed.

(** ** Unlimited depth *)

Lemma visit_unlimited o :
  forall bs,
    visit_outline r o (-1) bs = bs ++ map (bookmark_of r) (leaves_of o).
Proof.
  induction o as [d | sub IH] using Outline_ind; intros bs.
  - reflexivity.
  - rewrite visit_group. cbn [Z.gtb Z.eqb Z.compare Pos.eqb].
    now apply get_bookmarks_appends.
Qed.

Lemma length_flat_map_sum (A B : Type) (f : A -> list B) (g : A -> nat) l :
  Forall (fun x => List.length (f x) = g x) l ->
  List.length (flat_map f l) = list_sum (map g l).
Proof.
  induction 1 as [|x l Hx _ IH]; [reflexivity|].
  cbn [flat_map map]. rewrite length_app, Hx, IH. reflexivity.
Qed.

Lemma length_leaves_of o : List.length (leaves_of o) = leaf_count o.
Proof.
  induction o as [d | sub IH] using Outline_ind; [reflexivity|].
  change (List.length (flat_map leaves_of sub)
          = list_sum (map leaf_count sub)).
  now apply length_flat_map_sum.
Qed.

Lemma length_all_leaves outlines :
  List.length (all_leaves outlines) = total_leaf_count outlines.
Proof.
  apply length_flat_map_sum, Forall_forall.
  intros o _. apply length_leaves_of.
Qed.

(** ** Depth 0 and the other depths that never enter a group *)

Lemma visit_no_descent depth :
  depth < 1 -> depth <> -1 ->
  forall o bs,
    visit_outline r o depth bs
    = bs ++ map (bookmark_of r)
                (match o with Leaf d => [d] | Group _ => [] end).
Proof.
  intros Hlt Hne [d | sub] bs.
  - rewrite visit_leaf.
    destruct (Z.ltb_spec depth 1); [reflexivity | lia].
  - rewrite visit_group.
    destruct (Z.gtb_spec depth 0); [lia|].
    destruct (Z.eqb_spec depth (-1)); [lia|].
    simpl. now rewrite app_nil_r.
Qed.

Lemma get_bookmarks_no_descent depth outlines bs :
  depth < 1 -> depth <> -1 ->
  get_bookmarks r outlines bs depth
  = bs ++ map (bookmark_of r) (top_level_leaves outlines).
Proof.
  intros Hlt Hne. unfold top_level_leaves.
  apply get_bookmarks_appends, Forall_forall.
  intros o _ bs'. now apply visit_no_descent.
Qed.

(** ** A positive depth *)

Lemma visit_at_level o :
  forall (n : nat) bs,
    visit_outline r o (Z.of_nat n) bs
    = bs ++ map (bookmark_of r) (leaves_at_level n o).
Proof.
  induction o as [d | sub IH] using Outline_ind; intros n bs.
  - rewrite visit_leaf. destruct n as [|n].
    + reflexivity.
    + destruct (Z.ltb_spec (Z.of_nat (S n)) 1); [lia|].
      simpl. now rewrite app_nil_r.
  - rewrite visit_group. destruct n as [|n].
    + simpl. now rewrite app_nil_r.
    + destruct (Z.gtb_spec (Z.of_nat (S n)) 0); [|lia].
      replace (Z.of_nat (S n) - 1) with (Z.of_nat n) by lia.
      cbn [leaves_at_level].
      apply get_bookmarks_appends.
      eapply Forall_impl; [|exact IH]. intros o Ho. apply Ho.
Qed.

Lemma get_bookmarks_at_level (n : nat) outlines bs :
  get_bookmarks r outlines bs (Z.of_nat n)
  = bs ++ map (bookmark_of r) (flat_map (leaves_at_level n) outlines).
Proof.
  apply get_bookmarks_appends, Forall_forall.
  intros o _ bs'. apply visit_at_level.
Qed.

End Extractor.

(** C3: with [depth = -1] the extractor appends the bookmark of every leaf
    of the tree, whatever its nesting level, depth first and left to right
    (the order of the document); from an empty list the result has as many
    bookmarks as the tree has leaf nodes. *)
Theorem get_bookmarks_unlimited_depth
        (r : PdfReader) (outlines : list Outline) (bookmarks : list Bookmark) :
  get_bookmarks r outlines bookmarks (-1)
  = bookmarks ++ map (bookmark_of r) (all_leaves outlines)
  /\ get_bookmarks r outlines [] (-1)
     = map (bookmark_of r) (all_leaves outlines)
  /\ List.length (get_bookmarks r outlines [] (-1))
     = total_leaf_count outlines.
Proof.
  assert (H : forall bs,
             get_bookmarks r outlines bs (-1)
             = bs ++ map (bookmark_of r) (all_leaves outlines)).
  { intros bs. apply get_bookmarks_appends, Forall_forall.
    intros o _. apply visit_unlimited. }
  repeat split.
  - apply H.
  - apply (H []).
  - rewrite (H []). cbn [app]. rewrite length_map. apply length_all_leaves.
Qed.

(** C4: with [depth = 0] the extractor gives exactly the leaves that are
    items of the top-level list, in order; a group changes nothing, so
    neither it nor anything below it contributes a bookmark. *)
Theorem get_bookmarks_depth_zero
        (r : PdfReader) (outlines : list Outline) (bookmarks : list Bookmark) :
  get_bookmarks r outlines [] 0
  = map (bookmark_of r) (top_level_leaves outlines)
  /\ get_bookmarks r outlines bookmarks 0
     = bookmarks ++ map (bookmark_of r) (top_level_leaves outlines)
  /\ (forall sub bs, visit_outline r (Group sub) 0 bs = bs).
Proof.
  repeat split.
  - apply (get_bookmarks_no_descent r outlines []); lia.
  - apply get_bookmarks_no_descent; lia.
Qed.

(** C9: a depth [d <= -2] behaves as depth 0: the extraction appends the
    bookmarks of the leaves that are items of the list being scanned, in
    order, and nothing else; no group is entered; the result is the one of
    depth 0. *)
Theorem get_bookmarks_depth_below_minus_one
        (r : PdfReader) (outlines : list Outline) (bookmarks : list Bookmark)
        (d : Z) :
  d <= -2 ->
  get_bookmarks r outlines bookmarks d
  = bookmarks ++ map (bookmark_of r) (top_level_leaves outlines)
  /\ get_bookmarks r outlines bookmarks d
     = get_bookmarks r outlines bookmarks 0
  /\ (forall sub bs, visit_outline r (Group sub) d bs = bs)
  /\ (forall leaf bs,
         visit_outline r (Leaf leaf) d bs = bs ++ [bookmark_of r leaf]).
Proof.
  intros Hd. repeat split.
  - apply get_bookmarks_no_descent; lia.
  - rewrite !get_bookmarks_no_descent; [reflexivity | lia ..].
  - intros sub bs.
    rewrite (visit_no_descent r (depth := d)); [apply app_nil_r | lia ..].
  - intros leaf bs. rewrite (visit_no_descent r (depth := d)); [|lia ..].
    reflexivity.
Qed.

Lemma get_bookmarks_depth_below_minus_one_witness :
  -2 <= -2
  /\ get_bookmarks sample_reader sample_outlines [] (-2)
     = [] ++ map (bookmark_of sample_reader) (top_level_leaves sample_outlines)
  /\ get_bookmarks sample_reader sample_outlines [] (-2)
     = get_bookmarks sample_reader sample_outlines [] 0.
Proof.
  split; [lia|].
  destruct (get_bookmarks_depth_below_minus_one
              sample_reader sample_outlines [] (d := -2) ltac:(lia))
    as (Hresult & Hzero & _).
  split; [exact Hresult | exact Hzero].
Defined.

(** C2, as the claim has it, fails: with depth 1 the top-level leaf
    "Intro" of the sample outline is visited and is not in the output, and
    the output is not the list of the leaves of the levels visited. *)
Lemma get_bookmarks_depth_one_drops_top_level_leaves :
  In (Leaf intro) sample_outlines
  /\ get_bookmarks sample_reader sample_outlines [] 1
     = [("Chapter 1", 3); ("Chapter 2", 10)]
  /\ ~ In (bookmark_of sample_reader intro)
          (get_bookmarks sample_reader sample_outlines [] 1)
  /\ get_bookmarks sample_reader sample_outlines [] 1
     <> map (bookmark_of sample_reader)
            (flat_map (leaves_up_to_level 1) sample_outlines).
Proof.
  repeat split.
  - now left.
  - intros [H | [H | []]]; discriminate H.
  - discriminate.
Qed.

(** C2, amended: with a depth [d > 0] the extractor descends [d] levels
    into the groups and gives exactly the leaves found [d] groups deep, in
    the order of the document; a leaf met while the depth is still positive
    (a top-level leaf among them) is not appended. *)
Theorem get_bookmarks_positive_depth
        (r : PdfReader) (outlines : list Outline) (bookmarks : list Bookmark)
        (d : Z) :
  0 < d ->
  get_bookmarks r outlines bookmarks d
  = bookmarks
    ++ map (bookmark_of r) (flat_map (leaves_at_level (Z.to_nat d)) outlines)
  /\ (forall sub bs,
         visit_outline r (Group sub) d bs = get_bookmarks r sub bs (d - 1))
  /\ (forall leaf bs, visit_outline r (Leaf leaf) d bs = bs).
Proof.
  intros Hd. repeat split.
  - rewrite <- (Z2Nat.id d) at 1 by lia. apply get_bookmarks_at_level.
  - intros sub bs. rewrite visit_group.
    destruct (Z.gtb_spec d 0); [reflexivity | lia].
  - intros leaf bs. rewrite visit_leaf.
    destruct (Z.ltb_spec d 1); [lia | reflexivity].
Qed.

Lemma get_bookmarks_positive_depth_witness :
  0 < 2
  /\ get_bookmarks sample_reader sample_outlines [] 2
     = [] ++ map (bookmark_of sample_reader)
                 (flat_map (leaves_at_level (Z.to_nat 2)) sample_outlines).
Proof.
  split; [lia|].
  apply (get_bookmarks_positive_depth
           sample_reader sample_outlines [] (d := 2)).
  lia.
Defined.

(* ===================================================================== *)
(** * The name sanitizer *)
(* ===================================================================== *)

Section Sanitizer.

Lemma is_invalid_char_In c : is_invalid_char c = true <-> In c invalid_chars.
Proof.
  unfold is_invalid_char. rewrite existsb_exists. split.
  - intros (x & Hx & E). apply Ascii.eqb_eq in E. now subst.
  - intros H. exists c. split; [exact H | apply Ascii.eqb_refl].
Qed.

(** With the defaults the sanitizer works character by character. *)
Lemma sanitize_empty : sanitize EmptyString = EmptyString.
Proof. reflexivity. Qed.

Lemma sanitize_cons c s :
  sanitize (String c s) = String (sanitize_char c) (sanitize s).
Proof.
  unfold sanitize, sanitize_file_name, default_max_length,
    default_replacement, sanitize_char.
  cbn [re_sub_invalid_chars].
  destruct (is_invalid_char c) eqn:Einv; cbn [orb].
  - reflexivity.
  - cbn [str_replace]. destruct (Ascii.eqb c space); reflexivity.
Qed.

Lemma sanitize_char_clean c :
  is_invalid_char (sanitize_char c) = false
  /\ Ascii.eqb (sanitize_char c) space = false.
Proof.
  unfold sanitize_char.
  destruct (is_invalid_char c) eqn:Einv; cbn [orb].
  - split; reflexivity.
  - destruct (Ascii.eqb c space) eqn:Esp.
    + split; reflexivity.
    + split; assumption.
Qed.

Lemma sanitize_char_idem c :
  sanitize_char (sanitize_char c) = sanitize_char c.
Proof.
  destruct (sanitize_char_clean c) as [H1 H2].
  unfold sanitize_char at 1. now rewrite H1, H2.
Qed.

End Sanitizer.

(** C6: the result of [sanitize_file_name] with the default settings has
    no character of the reserved set (backslash, slash, colon, star,
    question mark, double quote, angle brackets, bar) and no space. *)
Theorem sanitize_has_no_reserved_char (s : string) :
  Forall (fun c => ~ In c invalid_chars /\ c <> space)
         (chars (sanitize_file_name s "_" None)).
Proof.
  change (sanitize_file_name s "_" None) with (sanitize s).
  induction s as [|c s IH].
  - constructor.
  - rewrite sanitize_cons. cbn [chars list_ascii_of_string].
    constructor; [|exact IH].
    destruct (sanitize_char_clean c) as [H1 H2]. split.
    + intros Hin. apply is_invalid_char_In in Hin. congruence.
    + intros E. rewrite E in H2. discriminate H2.
Qed.

(** C7: [sanitize_file_name] with the default settings is idempotent. *)
Theorem sanitize_idempotent (s : string) :
  sanitize_file_name (sanitize_file_name s "_" None) "_" None
  = sanitize_file_name s "_" None.
Proof.
  change (sanitize (sanitize s) = sanitize s).
  induction s as [|c s IH].
  - reflexivity.
  - rewrite !sanitize_cons, sanitize_char_idem, IH. reflexivity.
Qed.

(** C10: with the default replacement and no [max_length] the sanitizer
    keeps the length: each character is kept or replaced by one
    character. *)
Theorem sanitize_preserves_length (s : string) :
  String.length (sanitize_file_name s "_" None) = String.length s.
Proof.
  change (sanitize_file_name s "_" None) with (sanitize s).
  induction s as [|c s IH].
  - reflexivity.
  - rewrite sanitize_cons. cbn [String.length]. now rewrite IH.
Qed.

(* ===================================================================== *)
(** * The section splitter *)
(* ===================================================================== *)

(** ** Substrings *)

Lemma prefix_spec key :
  forall s, prefix key s = true <-> exists after, s = (key ++ after)%string.
Proof.
  induction key as [|c key IH]; intros s.
  - split; [|now destruct s]. intros _. now exists s.
  - destruct s as [|x s]; cbn [prefix].
    + split; [discriminate|]. intros (after & E). discriminate E.
    + destruct (ascii_dec c x) as [->|Hne].
      * rewrite IH. split; intros (after & E); exists after.
        -- now rewrite E.
        -- now injection E.
      * split; [discriminate|]. intros (after & E).
        injection E as E1 _. congruence.
Qed.

Lemma str_in_spec key :
  forall s, str_in key s = true <-> substring_of key s.
Proof.
  unfold substring_of. induction s as [|x s IH]; cbn [str_in].
  - rewrite orb_false_r, prefix_spec. split.
    + intros (after & E). now exists EmptyString, after.
    + intros ([|b before] & after & E); [now exists after|discriminate E].
  - rewrite orb_true_iff, prefix_spec, IH. split.
    + intros [(after & E) | (before & after & E)].
      * now exists EmptyString, after.
      * exists (String x before), after. now rewrite E.
    + intros ([|b before] & after & E).
      * left. now exists after.
      * right. injection E as _ E. now exists before, after.
Qed.

Lemma truthy_spec s : truthy s = false <-> s = EmptyString.
Proof. destruct s; split; intros H; (reflexivity || discriminate H). Qed.

Lemma selected_spec key t :
  selected key t = true <-> key = EmptyString \/ substring_of key t.
Proof.
  unfold selected.
  rewrite orb_true_iff, negb_true_iff, truthy_spec, str_in_spec.
  reflexivity.
Qed.

Lemma selected_empty t : selected EmptyString t = true.
Proof. reflexivity. Qed.

(** ** The monad *)

Lemma bind_ret_l (A B : Type) (a : A) (k : A -> IO B) : bind (ret a) k = k a.
Proof. unfold bind, ret. now destruct (k a). Qed.

(** ** End pages *)

Section Ranges.

Variable r : PdfReader.

Lemma end_page_of_split pre t a rest :
  end_page_of r (pre ++ (t, a) :: rest) (List.length pre)
  = match rest with
    | [] => total_pages r
    | (_, b) :: _ => b
    end.
Proof.
  unfold end_page_of. rewrite length_app. cbn [List.length].
  rewrite app_nth2_plus.
  destruct rest as [|[t' b] rest]; cbn [List.length].
  - destruct (Nat.ltb_spec (List.length pre + 1) (List.length pre + 1));
      [lia | reflexivity].
  - destruct (Nat.ltb_spec (List.length pre + 1)
                           (List.length pre + S (S (List.length rest))));
      [reflexivity | lia].
Qed.

Lemma nth_error_decompose (A : Type) (l : list A) i x :
  nth_error l i = Some x ->
  exists pre rest, l = pre ++ x :: rest /\ List.length pre = i.
Proof.
  intros H. destruct (nth_error_split l i H) as (pre & rest & E & L).
  now exists pre, rest.
Qed.

Lemma sections_app T pre t a rest :
  nth_error (sections T (pre ++ (t, a) :: rest)) (List.length pre)
  = Some (t, a, match rest with [] => T | (_, b) :: _ => b end).
Proof.
  induction pre as [|[t0 a0] pre IH]; [reflexivity|].
  cbn [app sections List.length nth_error]. exact IH.
Qed.

Lemma sections_nth bookmarks i t a :
  nth_error bookmarks i = Some (t, a) ->
  nth_error (sections (total_pages r) bookmarks) i
  = Some (t, a, end_page_of r bookmarks i).
Proof.
  intros H. destruct (nth_error_decompose _ _ H) as (pre & rest & -> & <-).
  now rewrite sections_app, end_page_of_split.
Qed.

End Ranges.

(** ** The loop *)

Section Loop.

Variable open_ok : string -> bool.
Variable r : PdfReader.
Variable key : string.
Variable output_path : string.
Variable mock : bool.

Lemma process_bookmark_unfold bookmarks i t a :
  process_bookmark open_ok r bookmarks key output_path mock i t a
  = if selected key t
    then process_section open_ok r output_path mock
                         (t, a, end_page_of r bookmarks i)
    else ret tt.
Proof. reflexivity. Qed.

Lemma enumerate_from_for_each rest :
  forall pre,
    enumerate_from open_ok r (pre ++ rest) key output_path mock
                   (List.length pre) rest
    = for_each (filter (fun s => selected key (fst (fst s)))
                       (sections (total_pages r) rest))
               (process_section open_ok r output_path mock).
Proof.
  induction rest as [|[t a] rest IH]; intros pre; [reflexivity|].
  cbn [enumerate_from sections filter fst].
  rewrite process_bookmark_unfold, end_page_of_split.
  specialize (IH (pre ++ [(t, a)])).
  rewrite <- app_assoc, length_app in IH. cbn [app List.length] in IH.
  replace (List.length pre + 1)%nat with (S (List.length pre)) in IH by lia.
  rewrite IH.
  destruct (selected key t); [reflexivity | apply bind_ret_l].
Qed.

Lemma separate_by_bookmark_for_each bookmarks :
  separate_by_bookmark open_ok r bookmarks key output_path mock
  = for_each (filter (fun s => selected key (fst (fst s)))
                     (sections (total_pages r) bookmarks))
             (process_section open_ok r output_path mock).
Proof. apply (enumerate_from_for_each bookmarks []). Qed.

End Loop.

Lemma filter_all (A : Type) (f : A -> bool) (l : list A) :
  (forall x, f x = true) -> filter f l = l.
Proof.
  intros H. induction l as [|x l IH]; [reflexivity|].
  cbn [filter]. now rewrite H, IH.
Qed.

(** A mock run prints the report of each section and raises nothing. *)
Lemma for_each_report open_ok r output_path (l : list SectionRange) :
  for_each l (process_section open_ok r output_path true)
  = (flat_map report_events l, Returned tt).
Proof.
  induction l as [|[[t a] b] l IH]; [reflexivity|].
  cbn [for_each flat_map]. rewrite IH. reflexivity.
Qed.

(** C1: for a bookmark list of length [n] and a document of [T] pages, the
    section of the bookmark at index [i] starts at the start page of that
    bookmark; it ends at the start page of the bookmark at [i + 1] when
    [i < n - 1] and at [T] when [i = n - 1].  This is the range the loop
    body works with, and the one a mock run with no key prints. *)
Theorem section_range_of_bookmark
        (open_ok : string -> bool) (r : PdfReader) (bookmarks : list Bookmark)
        (key output_path : string) (mock : bool)
        (i : nat) (t : string) (a : Z) :
  nth_error bookmarks i = Some (t, a) ->
  process_bookmark open_ok r bookmarks key output_path mock i t a
  = (if selected key t
     then process_section open_ok r output_path mock
                          (t, a, end_page_of r bookmarks i)
     else ret tt)
  /\ ((i + 1 < List.length bookmarks)%nat ->
      exists t' b,
        nth_error bookmarks (i + 1) = Some (t', b)
        /\ end_page_of r bookmarks i = b)
  /\ ((i + 1 = List.length bookmarks)%nat ->
      end_page_of r bookmarks i = total_pages r)
  /\ nth_error (sections (total_pages r) bookmarks) i
     = Some (t, a, end_page_of r bookmarks i)
  /\ separate_by_bookmark open_ok r bookmarks EmptyString output_path true
     = (flat_map report_events (sections (total_pages r) bookmarks),
        Returned tt).
Proof.
  intros H. split; [reflexivity|].
  destruct (nth_error_decompose _ _ H) as (pre & rest & E & L).
  subst bookmarks i. rewrite end_page_of_split.
  repeat split.
  - rewrite length_app. cbn [List.length]. intros Hlt.
    destruct rest as [|[t' b] rest]; [cbn [List.length] in Hlt; lia|].
    exists t', b. split; [|reflexivity].
    rewrite nth_error_app2 by lia.
    replace (List.length pre + 1 - List.length pre)%nat with 1%nat by lia.
    reflexivity.
  - rewrite length_app. cbn [List.length]. intros Heq.
    destruct rest as [|x rest]; [reflexivity|].
    cbn [List.length] in Heq. lia.
  - apply sections_app.
  - rewrite separate_by_bookmark_for_each, for_each_report.
    rewrite filter_all; [reflexivity|]. intros x. apply selected_empty.
Qed.

Lemma section_range_of_bookmark_witness :
  nth_error sample_bookmarks 1 = Some ("Chapter 1", 3)
  /\ end_page_of sample_reader sample_bookmarks 1 = 10
  /\ end_page_of sample_reader sample_bookmarks 2 = 15.
Proof.
  split; [reflexivity|]. split.
  - destruct (section_range_of_bookmark
                always_open sample_reader sample_bookmarks
                EmptyString EmptyString true 1 (t := "Chapter 1") (a := 3)
                eq_refl) as (_ & Hnext & _).
    destruct (Hnext ltac:(cbn; lia)) as (t' & b & Hnth & ->).
    cbn in Hnth. now injection Hnth.
  - reflexivity.
Defined.

(** C5: the loop processes a bookmark exactly when [key] is empty or occurs
    in its title (upper and lower case distinct), and what it does with a
    processed bookmark is what it does with it when the key is empty: the
    whole run is the run over the sections of the unfiltered list whose
    title passes the filter, so every range is the one computed without a
    key, and the last bookmark of the list runs to the number of pages. *)
Theorem key_filter_keeps_ranges
        (open_ok : string -> bool) (r : PdfReader) (bookmarks : list Bookmark)
        (key output_path : string) (mock : bool) :
  (forall t, selected key t = true <-> key = EmptyString \/ substring_of key t)
  /\ selected "chapter" "Chapter 1" = false
  /\ (forall i t a,
         process_bookmark open_ok r bookmarks key output_path mock i t a
         = if selected key t
           then process_bookmark open_ok r bookmarks EmptyString
                                 output_path mock i t a
           else ret tt)
  /\ separate_by_bookmark open_ok r bookmarks key output_path mock
     = for_each (filter (fun s => selected key (fst (fst s)))
                        (sections (total_pages r) bookmarks))
                (process_section open_ok r output_path mock)
  /\ separate_by_bookmark open_ok r bookmarks EmptyString output_path mock
     = for_each (sections (total_pages r) bookmarks)
                (process_section open_ok r output_path mock)
  /\ separate_by_bookmark open_ok r bookmarks key output_path true
     = (flat_map report_events
                 (filter (fun s => selected key (fst (fst s)))
                         (sections (total_pages r) bookmarks)),
        Returned tt)
  /\ (forall pre t a,
         bookmarks = pre ++ [(t, a)] ->
         end_page_of r bookmarks (List.length pre) = total_pages r
         /\ nth_error (sections (total_pages r) bookmarks) (List.length pre)
            = Some (t, a, total_pages r)).
Proof.
  split; [intros t; apply selected_spec|].
  split; [reflexivity|].
  split.
  { intros i t a. rewrite !process_bookmark_unfold, selected_empty.
    reflexivity. }
  split; [apply separate_by_bookmark_for_each|].
  split.
  { rewrite separate_by_bookmark_for_each, filter_all; [reflexivity|].
    intros x. apply selected_empty. }
  split.
  { now rewrite separate_by_bookmark_for_each, for_each_report. }
  intros pre t a ->. split.
  - apply end_page_of_split.
  - apply sections_app.
Qed.

(** C8: for the title "A/B: C?" the file name derived with the default
    sanitizer settings, before any output directory is joined, is
    "A_B__C_.pdf"; it is the name of the file that a run with no output
    directory writes. *)
Theorem output_file_name_scenario :
  output_file_name "A/B: C?" = "A_B__C_.pdf"
  /\ separate_by_bookmark always_open sample_reader [("A/B: C?", 13)]
                          EmptyString EmptyString false
     = ([Written "A_B__C_.pdf" [13%nat; 14%nat];
         Printed "Created: A_B__C_.pdf"],
        Returned tt).
Proof. split; reflexivity. Qed.

(* ===================================================================== *)
(** * Further properties of the extractor *)
(* ===================================================================== *)

Section ExtractorMore.

Variable r : PdfReader.

Lemma visit_prepend o :
  forall depth bs,
    visit_outline r o depth bs = bs ++ visit_outline r o depth [].
Proof.
  induction o as [d | sub IH] using Outline_ind; intros depth bs.
  - rewrite !visit_leaf. destruct (depth <? 1); [reflexivity|].
    now rewrite app_nil_r.
  - assert (G : forall dp acc,
               get_bookmarks r sub acc dp = acc ++ get_bookmarks r sub [] dp).
    { intros dp. induction IH as [|o l Ho _ IHl]; intros acc.
      - now rewrite !get_bookmarks_nil, app_nil_r.
      - rewrite !get_bookmarks_cons, IHl, (IHl (visit_outline r o dp [])).
        now rewrite (Ho dp acc), app_assoc. }
    rewrite !visit_group.
    destruct (depth >? 0); [apply G|].
    destruct (depth =? -1); [apply G|].
    now rewrite app_nil_r.
Qed.

Lemma get_bookmarks_prepend outlines :
  forall depth bs,
    get_bookmarks r outlines bs depth
    = bs ++ get_bookmarks r outlines [] depth.
Proof.
  intros depth. induction outlines as [|o l IH]; intros bs.
  - now rewrite !get_bookmarks_nil, app_nil_r.
  - rewrite !get_bookmarks_cons, IH, (IH (visit_outline r o depth [])).
    now rewrite (visit_prepend o depth bs), app_assoc.
Qed.

Lemma get_bookmarks_all_leaves outlines :
  get_bookmarks r outlines [] (-1)
  = map (bookmark_of r) (all_leaves outlines).
Proof.
  change (get_bookmarks r outlines [] (-1)
          = [] ++ map (bookmark_of r) (flat_map leaves_of outlines)).
  apply get_bookmarks_appends, Forall_forall.
  intros o _. apply visit_unlimited.
Qed.

Lemma Subseq_nil_l (A : Type) (l : list A) : Subseq [] l.
Proof. induction l; constructor; assumption. Qed.

Lemma Subseq_refl (A : Type) (l : list A) : Subseq l l.
Proof. induction l; constructor; assumption. Qed.

Lemma Subseq_app (A : Type) (l1 l2 : list A) :
  Subseq l1 l2 -> forall k1 k2, Subseq k1 k2 -> Subseq (l1 ++ k1) (l2 ++ k2).
Proof.
  induction 1 as [|x l1 l2 _ IH|x l1 l2 _ IH]; intros k1 k2 Hk; cbn [app].
  - exact Hk.
  - apply Subseq_skip, IH, Hk.
  - apply Subseq_take, IH, Hk.
Qed.

Lemma Subseq_length (A : Type) (l1 l2 : list A) :
  Subseq l1 l2 -> (List.length l1 <= List.length l2)%nat.
Proof. induction 1; cbn [List.length]; lia. Qed.

Lemma get_bookmarks_subseq_of_parts depth outlines :
  Forall (fun o => Subseq (visit_outline r o depth [])
                          (map (bookmark_of r) (leaves_of o))) outlines ->
  Subseq (get_bookmarks r outlines [] depth)
         (map (bookmark_of r) (flat_map leaves_of outlines)).
Proof.
  induction 1 as [|o l Ho _ IH]; [constructor|].
  rewrite get_bookmarks_cons, get_bookmarks_prepend.
  cbn [flat_map]. rewrite map_app. now apply Subseq_app.
Qed.

Lemma visit_subseq o :
  forall depth,
    Subseq (visit_outline r o depth []) (map (bookmark_of r) (leaves_of o)).
Proof.
  induction o as [d | sub IH] using Outline_ind; intros depth.
  - rewrite visit_leaf. destruct (depth <? 1).
    + apply Subseq_refl.
    + apply Subseq_nil_l.
  - rewrite visit_group. cbn [leaves_of].
    destruct (depth >? 0).
    + apply get_bookmarks_subseq_of_parts.
      eapply Forall_impl; [|exact IH]. intros o Ho. apply Ho.
    + destruct (depth =? -1).
      * apply get_bookmarks_subseq_of_parts.
        eapply Forall_impl; [|exact IH]. intros o Ho. apply Ho.
      * apply Subseq_nil_l.
Qed.

End ExtractorMore.

(** X1: [get_bookmarks] only appends: the bookmarks already in the list stay
    in front, unchanged, whatever the depth; and the bookmarks of two
    outline lists one after the other are those of the first followed by
    those of the second. *)
Theorem get_bookmarks_only_appends
        (r : PdfReader) (outlines more : list Outline)
        (bookmarks : list Bookmark) (depth : Z) :
  get_bookmarks r outlines bookmarks depth
  = bookmarks ++ get_bookmarks r outlines [] depth
  /\ get_bookmarks r (outlines ++ more) [] depth
     = get_bookmarks r outlines [] depth ++ get_bookmarks r more [] depth.
Proof.
  split; [apply get_bookmarks_prepend|].
  unfold get_bookmarks at 1. rewrite fold_left_app.
  apply (get_bookmarks_prepend r more depth).
Qed.

(** X2: whatever the depth, the bookmarks extracted are bookmarks of the
    unlimited extraction, in the same relative order: a depth never
    invents, repeats or reorders a bookmark, and never gives more of them
    than depth -1 does. *)
Theorem get_bookmarks_subsequence_of_unlimited
        (r : PdfReader) (outlines : list Outline) (depth : Z) :
  Subseq (get_bookmarks r outlines [] depth)
         (get_bookmarks r outlines [] (-1))
  /\ (List.length (get_bookmarks r outlines [] depth)
      <= total_leaf_count outlines)%nat.
Proof.
  assert (H : Subseq (get_bookmarks r outlines [] depth)
                     (get_bookmarks r outlines [] (-1))).
  { rewrite get_bookmarks_all_leaves.
    apply get_bookmarks_subseq_of_parts, Forall_forall.
    intros o _. apply visit_subseq. }
  split; [exact H|].
  apply Subseq_length in H.
  rewrite get_bookmarks_all_leaves, length_map, length_all_leaves in H.
  exact H.
Qed.

(** X3: on an outline with no nested list, every depth below 1 gives the
    bookmark of every item and every depth from 1 on gives none. *)
Theorem get_bookmarks_flat_outline
        (r : PdfReader) (outlines : list Outline)
        (bookmarks : list Bookmark) (depth : Z) :
  forallb is_leaf outlines = true ->
  get_bookmarks r outlines bookmarks depth
  = if depth <? 1
    then bookmarks ++ map (bookmark_of r) (all_leaves outlines)
    else bookmarks.
Proof.
  intros Hflat. revert bookmarks.
  induction outlines as [|o l IH]; intros bookmarks.
  - rewrite get_bookmarks_nil.
    destruct (depth <? 1); [now rewrite app_nil_r | reflexivity].
  - cbn [forallb] in Hflat. apply andb_prop in Hflat as [Ho Hl].
    destruct o as [d | sub]; [|discriminate Ho].
    rewrite get_bookmarks_cons, (IH Hl), visit_leaf.
    destruct (depth <? 1); [|reflexivity].
    unfold all_leaves. cbn [flat_map leaves_of app map].
    now rewrite <- app_assoc.
Qed.

(* ===================================================================== *)
(** * Further properties of the sanitizer *)
(* ===================================================================== *)

Section SanitizerMore.

Lemma chars_append a b : chars (a ++ b)%string = chars a ++ chars b.
Proof.
  induction a as [|c a IH]; [reflexivity|].
  cbn [append chars list_ascii_of_string app]. f_equal. exact IH.
Qed.

Lemma length_chars s : List.length (chars s) = String.length s.
Proof.
  induction s as [|c s IH]; [reflexivity|].
  cbn [chars list_ascii_of_string List.length String.length].
  f_equal. exact IH.
Qed.

Lemma append_empty_r s : (s ++ EmptyString)%string = s.
Proof. induction s as [|c s IH]; [reflexivity|]. cbn. now rewrite IH. Qed.

Lemma prefix_refl s : prefix s s = true.
Proof. apply prefix_spec. exists EmptyString. now rewrite append_empty_r. Qed.

Lemma chars_substring_0 k :
  forall s, chars (substring 0 k s) = firstn k (chars s).
Proof.
  induction k as [|k IH]; intros [|c s]; try reflexivity.
  cbn [substring chars list_ascii_of_string firstn]. f_equal. apply IH.
Qed.

Lemma prefix_substring_0 k : forall s, prefix (substring 0 k s) s = true.
Proof.
  induction k as [|k IH]; intros [|c s]; try reflexivity.
  cbn [substring prefix].
  destruct (ascii_dec c c) as [_|Hne]; [apply IH | now elim Hne].
Qed.

Lemma length_substring_0 k s :
  String.length (substring 0 k s) = Nat.min k (String.length s).
Proof.
  now rewrite <- !length_chars, chars_substring_0, length_firstn.
Qed.

Lemma clean_char_spec c :
  clean_char c = true
  <-> is_invalid_char c = false /\ Ascii.eqb c space = false.
Proof.
  unfold clean_char. rewrite andb_true_iff, !negb_true_iff. reflexivity.
Qed.

Lemma clean_Forall s :
  clean s = true <-> Forall (fun c => clean_char c = true) (chars s).
Proof. unfold clean. now rewrite forallb_forall, Forall_forall. Qed.

(** The two passes, on the characters they look at. *)
Lemma re_sub_no_invalid replacement s :
  Forall (fun c => is_invalid_char c = false) (chars replacement) ->
  Forall (fun c => is_invalid_char c = false)
         (chars (re_sub_invalid_chars replacement s)).
Proof.
  intros Hr. induction s as [|c s IH]; [constructor|].
  cbn [re_sub_invalid_chars]. destruct (is_invalid_char c) eqn:E.
  - rewrite chars_append. apply Forall_app. now split.
  - cbn [chars list_ascii_of_string]. now constructor.
Qed.

Lemma str_replace_space_clean replacement s :
  Forall (fun c => clean_char c = true) (chars replacement) ->
  Forall (fun c => is_invalid_char c = false) (chars s) ->
  Forall (fun c => clean_char c = true)
         (chars (str_replace space replacement s)).
Proof.
  intros Hr. induction s as [|c s IH]; intros Hs; [constructor|].
  cbn [chars list_ascii_of_string] in Hs.
  apply Forall_cons_iff in Hs as [Hc Hs].
  cbn [str_replace]. destruct (Ascii.eqb c space) eqn:E.
  - rewrite chars_append. apply Forall_app. split; [exact Hr | now apply IH].
  - cbn [chars list_ascii_of_string]. constructor; [|now apply IH].
    now apply clean_char_spec.
Qed.

Lemma re_sub_unchanged replacement s :
  Forall (fun c => is_invalid_char c = false) (chars s) ->
  re_sub_invalid_chars replacement s = s.
Proof.
  induction s as [|c s IH]; intros Hs; [reflexivity|].
  cbn [chars list_ascii_of_string] in Hs.
  apply Forall_cons_iff in Hs as [Hc Hs].
  cbn [re_sub_invalid_chars]. now rewrite Hc, IH.
Qed.

Lemma str_replace_unchanged old replacement s :
  Forall (fun c => Ascii.eqb c old = false) (chars s) ->
  str_replace old replacement s = s.
Proof.
  induction s as [|c s IH]; intros Hs; [reflexivity|].
  cbn [chars list_ascii_of_string] in Hs.
  apply Forall_cons_iff in Hs as [Hc Hs].
  cbn [str_replace]. now rewrite Hc, IH.
Qed.

Lemma clean_unchanged replacement s :
  clean s = true -> sanitize_file_name s replacement None = s.
Proof.
  intros H. apply clean_Forall in H. unfold sanitize_file_name.
  rewrite re_sub_unchanged.
  - apply str_replace_unchanged.
    eapply Forall_impl; [|exact H]. intros c Hc. now apply clean_char_spec.
  - eapply Forall_impl; [|exact H]. intros c Hc. now apply clean_char_spec.
Qed.

Lemma sanitize_untruncated_clean replacement s :
  clean replacement = true ->
  clean (sanitize_file_name s replacement None) = true.
Proof.
  intros Hr. apply clean_Forall in Hr. apply clean_Forall.
  unfold sanitize_file_name.
  apply str_replace_space_clean; [exact Hr|].
  apply re_sub_no_invalid.
  eapply Forall_impl; [|exact Hr]. intros c Hc. now apply clean_char_spec.
Qed.

(** The result with a [max_length] is a slice of the result without. *)
Lemma sanitize_truncated s replacement m :
  sanitize_file_name s replacement (Some m)
  = let full := sanitize_file_name s replacement None in
    if Z.of_nat (String.length full) >? m then slice_to m full else full.
Proof. reflexivity. Qed.

Lemma Forall_firstn_of (A : Type) (P : A -> Prop) (l : list A) :
  Forall P l -> forall k, Forall P (firstn k l).
Proof.
  induction 1 as [|x l Hx _ IH]; intros [|k]; cbn [firstn]; constructor.
  - exact Hx.
  - apply IH.
Qed.

Lemma slice_to_clean m s : clean s = true -> clean (slice_to m s) = true.
Proof.
  rewrite !clean_Forall. unfold slice_to. rewrite chars_substring_0.
  intros H. now apply Forall_firstn_of.
Qed.

Lemma sanitize_any_clean s replacement max_length :
  clean replacement = true ->
  clean (sanitize_file_name s replacement max_length) = true.
Proof.
  intros Hr. destruct max_length as [m|].
  - rewrite sanitize_truncated. cbv zeta.
    destruct (_ >? m).
    + now apply slice_to_clean, sanitize_untruncated_clean.
    + now apply sanitize_untruncated_clean.
  - now apply sanitize_untruncated_clean.
Qed.

Lemma sanitize_length_bound s replacement m :
  0 <= m ->
  Z.of_nat (String.length (sanitize_file_name s replacement (Some m)))
  = Z.min m (Z.of_nat
               (String.length (sanitize_file_name s replacement None))).
Proof.
  intros Hm. rewrite sanitize_truncated. cbv zeta.
  set (full := sanitize_file_name s replacement None).
  destruct (Z.gtb_spec (Z.of_nat (String.length full)) m) as [Hgt|Hle].
  - unfold slice_to. destruct (Z.ltb_spec m 0); [lia|].
    rewrite length_substring_0. lia.
  - lia.
Qed.

Lemma sanitize_truncated_prefix s replacement m :
  prefix (sanitize_file_name s replacement (Some m))
         (sanitize_file_name s replacement None) = true.
Proof.
  rewrite sanitize_truncated. cbv zeta.
  destruct (_ >? m); [apply prefix_substring_0 | apply prefix_refl].
Qed.

End SanitizerMore.

(** X4: when the replacement has no reserved character and no space, the
    result has none either, with or without a [max_length]. *)
Theorem sanitize_file_name_clean
        (s replacement : string) (max_length : option Z) :
  clean replacement = true ->
  clean (sanitize_file_name s replacement max_length) = true.
Proof. apply sanitize_any_clean. Qed.

(** X5: for a replacement without backslash and a [max_length] that is not
    negative, the result has at most [max_length] characters: it has the
    smaller of [max_length] and the length of the untruncated result, and
    it is a prefix of that result. *)
Theorem sanitize_file_name_max_length
        (s replacement : string) (m : Z) :
  no_backslash replacement = true ->
  0 <= m ->
  Z.of_nat (String.length (sanitize_file_name s replacement (Some m)))
  = Z.min m (Z.of_nat
               (String.length (sanitize_file_name s replacement None)))
  /\ prefix (sanitize_file_name s replacement (Some m))
            (sanitize_file_name s replacement None) = true.
Proof.
  intros _ Hm. split.
  - now apply sanitize_length_bound.
  - apply sanitize_truncated_prefix.
Qed.

(** X6: for a replacement without backslash, a negative [max_length] is
    read as a Python slice bound: the last [-max_length] characters of the
    untruncated result are dropped (all of them when there are fewer). *)
Theorem sanitize_file_name_negative_max_length
        (s replacement : string) (m : Z) :
  no_backslash replacement = true ->
  m < 0 ->
  Z.of_nat (String.length (sanitize_file_name s replacement (Some m)))
  = Z.max 0 (Z.of_nat
               (String.length (sanitize_file_name s replacement None)) + m)
  /\ prefix (sanitize_file_name s replacement (Some m))
            (sanitize_file_name s replacement None) = true.
Proof.
  intros _ Hm. split; [|apply sanitize_truncated_prefix].
  rewrite sanitize_truncated. cbv zeta.
  set (full := sanitize_file_name s replacement None).
  destruct (Z.gtb_spec (Z.of_nat (String.length full)) m) as [Hgt|Hle]; [|lia].
  unfold slice_to. destruct (Z.ltb_spec m 0); [|lia].
  rewrite length_substring_0. lia.
Qed.

(** X7: the sanitizer is idempotent for every replacement without reserved
    character or space, also with a [max_length] that is not negative. *)
Theorem sanitize_file_name_idempotent
        (s replacement : string) (max_length : option Z) :
  clean replacement = true ->
  match max_length with Some m => 0 <= m | None => True end ->
  sanitize_file_name (sanitize_file_name s replacement max_length)
                     replacement max_length
  = sanitize_file_name s replacement max_length.
Proof.
  intros Hr Hm.
  pose proof (@sanitize_any_clean s replacement max_length Hr) as Hc.
  destruct max_length as [m|]; [|now apply clean_unchanged].
  set (once := sanitize_file_name s replacement (Some m)) in *.
  rewrite (sanitize_truncated once). cbv zeta.
  rewrite (@clean_unchanged replacement once Hc).
  pose proof (@sanitize_length_bound s replacement m Hm) as Hlen.
  fold once in Hlen.
  destruct (Z.gtb_spec (Z.of_nat (String.length once)) m); [lia | reflexivity].
Qed.

Section FileNames.

Lemma empty_replacement_filters s :
  str_replace space EmptyString (re_sub_invalid_chars EmptyString s)
  = string_of_list_ascii (filter clean_char (chars s)).
Proof.
  induction s as [|c s IH]; [reflexivity|].
  cbn [re_sub_invalid_chars chars list_ascii_of_string filter].
  unfold clean_char at 1. destruct (is_invalid_char c); cbn [negb andb append].
  - exact IH.
  - cbn [str_replace]. destruct (Ascii.eqb c space); cbn [negb append].
    + exact IH.
    + cbn [string_of_list_ascii]. f_equal. exact IH.
Qed.

Lemma sanitize_append a b :
  sanitize (a ++ b)%string = (sanitize a ++ sanitize b)%string.
Proof.
  induction a as [|c a IH]; [reflexivity|].
  cbn [append]. rewrite !sanitize_cons. cbn [append]. now rewrite IH.
Qed.

Lemma sanitize_after_space_replace t :
  sanitize (str_replace space "_" t) = sanitize t.
Proof.
  induction t as [|c t IH]; [reflexivity|].
  cbn [str_replace]. destruct (Ascii.eqb c space) eqn:E.
  - apply Ascii.eqb_eq in E. subst c.
    cbn [append]. rewrite !sanitize_cons, IH. reflexivity.
  - rewrite !sanitize_cons, IH. reflexivity.
Qed.

Lemma output_file_name_sanitize t :
  output_file_name t = (sanitize t ++ ".pdf")%string.
Proof.
  unfold output_file_name.
  change (sanitize (str_replace space "_" t ++ ".pdf")
          = (sanitize t ++ ".pdf")%string).
  rewrite sanitize_append, sanitize_after_space_replace. reflexivity.
Qed.

Lemma output_file_name_not_absolute t :
  prefix "/" (output_file_name t) = false.
Proof.
  rewrite output_file_name_sanitize. destruct t as [|c t]; [reflexivity|].
  rewrite sanitize_cons. cbn [append prefix].
  destruct (ascii_dec "/" (sanitize_char c)) as [E|_]; [|reflexivity].
  destruct (sanitize_char_clean c) as [H _]. rewrite <- E in H.
  discriminate H.
Qed.

End FileNames.

(** X8: with the empty string as replacement the sanitizer deletes: the
    result is the input without its reserved characters and spaces, the
    other characters in their order. *)
Theorem sanitize_file_name_empty_replacement (s : string) :
  sanitize_file_name s EmptyString None
  = string_of_list_ascii (filter clean_char (chars s)).
Proof. apply empty_replacement_filters. Qed.

(** X9: a string without reserved character or space is returned as it is
    for every replacement without backslash; with the default replacement
    these are the only strings the sanitizer returns unchanged. *)
Theorem sanitize_file_name_fixed_points (s : string) :
  (clean s = true ->
   forall replacement,
     no_backslash replacement = true ->
     sanitize_file_name s replacement None = s)
  /\ (sanitize_file_name s "_" None = s -> clean s = true).
Proof.
  split.
  - intros H replacement _. now apply clean_unchanged.
  - intros H. rewrite <- H. now apply sanitize_untruncated_clean.
Qed.

(** X10: the file name of a section is the sanitized title followed by
    ".pdf" (replacing the spaces of the title beforehand changes nothing);
    it has four characters more than the title and neither a reserved
    character, a path separator among them, nor a space. *)
Theorem output_file_name_shape (t : string) :
  output_file_name t = (sanitize_file_name t "_" None ++ ".pdf")%string
  /\ String.length (output_file_name t) = (String.length t + 4)%nat
  /\ clean (output_file_name t) = true.
Proof.
  split; [apply output_file_name_sanitize|]. split.
  - rewrite output_file_name_sanitize, <- !length_chars, chars_append.
    rewrite length_app, !length_chars.
    induction t as [|c t IH]; [reflexivity|].
    rewrite sanitize_cons. cbn [String.length]. cbn [String.length] in IH.
    lia.
  - unfold output_file_name. now apply sanitize_any_clean.
Qed.

(** X11: the path a section is written to is the output directory, a
    separator when the directory does not end with one, and the file name
    of the section: no title makes [os.path.join] drop the directory. *)
Theorem section_path_in_output_directory (output_path t : string) :
  section_path output_path t
  = (output_path
     ++ (if truthy output_path && negb (ends_with "/"%char output_path)
         then "/" else EmptyString)
     ++ output_file_name t)%string.
Proof.
  unfold section_path, os_path_join.
  rewrite output_file_name_not_absolute.
  destruct output_path as [|c p]; [reflexivity|].
  cbn [truthy negb orb andb].
  destruct (ends_with "/"%char (String c p)); reflexivity.
Qed.

(* ===================================================================== *)
(** * Further properties of the splitter *)
(* ===================================================================== *)

Section Materialize.

Variable open_ok : string -> bool.
Variable r : PdfReader.

Lemma range_nil a b : b <= a -> range a b = [].
Proof.
  intros H. unfold range. replace (Z.to_nat (b - a)) with 0%nat by lia.
  reflexivity.
Qed.

Lemma range_cons a b : a < b -> range a b = a :: range (a + 1) b.
Proof.
  intros H. unfold range.
  replace (Z.to_nat (b - a)) with (S (Z.to_nat (b - (a + 1)))) by lia.
  cbn [seq map]. f_equal; [lia|].
  rewrite <- seq_shift, map_map. apply map_ext. intros k. lia.
Qed.

Lemma skipn_nth_error (A : Type) (l : list A) :
  forall n x, nth_error l n = Some x -> skipn n l = x :: skipn (S n) l.
Proof.
  induction l as [|y l IH]; intros [|n] x H; try discriminate H.
  - now injection H as ->.
  - cbn [nth_error] in H. cbn [skipn]. now apply IH.
Qed.

Lemma slice_cons (A : Type) (l : list A) a b x :
  0 <= a < b -> nth_error l (Z.to_nat a) = Some x ->
  slice l a b = x :: slice l (a + 1) b.
Proof.
  intros H Hx. unfold slice.
  rewrite (skipn_nth_error _ _ Hx).
  replace (Z.to_nat (b - a)) with (S (Z.to_nat (b - (a + 1)))) by lia.
  replace (Z.to_nat (a + 1)) with (S (Z.to_nat a)) by lia.
  reflexivity.
Qed.

Lemma firstn_firstn_skipn (A : Type) (l : list A) :
  forall n m, firstn n l ++ firstn m (skipn n l) = firstn (n + m) l.
Proof.
  induction l as [|x l IH]; intros [|n] m; cbn [firstn skipn app Nat.add];
    try reflexivity.
  - now rewrite firstn_nil.
  - f_equal. apply IH.
Qed.

Lemma slice_app (A : Type) (l : list A) a b c :
  0 <= a <= b -> b <= c -> slice l a b ++ slice l b c = slice l a c.
Proof.
  intros Hab Hbc. unfold slice.
  replace (Z.to_nat b) with (Z.to_nat (b - a) + Z.to_nat a)%nat by lia.
  rewrite <- skipn_skipn, firstn_firstn_skipn. f_equal. lia.
Qed.

Lemma slice_to_end (A : Type) (l : list A) a :
  0 <= a -> slice l a (Z.of_nat (List.length l)) = skipn (Z.to_nat a) l.
Proof.
  intros Ha. unfold slice. apply firstn_all2. rewrite length_skipn. lia.
Qed.

Lemma pages_getitem_inside i :
  0 <= i < total_pages r ->
  exists p, nth_error (pages r) (Z.to_nat i) = Some p
            /\ pages_getitem r i = ret p.
Proof.
  unfold total_pages. intros H. unfold pages_getitem.
  destruct (Z.ltb_spec i 0); [lia|].
  destruct (Z.ltb_spec i 0); [lia|].
  destruct (Z.geb_spec i (Z.of_nat (List.length (pages r)))); [lia|].
  cbn [orb].
  destruct (nth_error (pages r) (Z.to_nat i)) as [p|] eqn:E.
  - now exists p.
  - apply nth_error_None in E. lia.
Qed.

Lemma pages_getitem_beyond i :
  total_pages r <= i -> 0 <= i -> pages_getitem r i = raise IndexError.
Proof.
  unfold total_pages. intros H H0. unfold pages_getitem.
  destruct (Z.ltb_spec i 0); [lia|].
  destruct (Z.ltb_spec i 0); [lia|].
  destruct (Z.geb_spec i (Z.of_nat (List.length (pages r)))); [|lia].
  reflexivity.
Qed.

Lemma add_pages_inside n :
  forall a b w,
    n = Z.to_nat (b - a) -> 0 <= a -> b <= total_pages r ->
    add_pages r (range a b) w = ret (w ++ slice (pages r) a b).
Proof.
  induction n as [|n IH]; intros a b w Hn Ha Hb.
  - rewrite range_nil by lia. unfold slice. rewrite <- Hn.
    cbn [firstn add_pages]. now rewrite app_nil_r.
  - rewrite range_cons by lia. cbn [add_pages].
    destruct (pages_getitem_inside (i := a)) as (p & Hp & ->); [lia|].
    rewrite bind_ret_l, (IH (a + 1) b) by lia.
    rewrite (@slice_cons Page (pages r) a b p) by (try lia; exact Hp).
    now rewrite <- app_assoc.
Qed.

Lemma add_pages_beyond n :
  forall a b w,
    n = Z.to_nat (b - a) -> 0 <= a < b -> total_pages r < b ->
    add_pages r (range a b) w = raise IndexError.
Proof.
  induction n as [|n IH]; intros a b w Hn Ha Hb; [lia|].
  rewrite range_cons by lia. cbn [add_pages].
  destruct (Z.lt_ge_cases a (total_pages r)) as [Hin|Hout].
  - destruct (pages_getitem_inside (i := a)) as (p & _ & ->); [lia|].
    rewrite bind_ret_l. apply IH; lia.
  - rewrite pages_getitem_beyond by lia. reflexivity.
Qed.

(** Reading pages causes no event. *)
Lemma add_pages_silent page_nums :
  forall w, fst (add_pages r page_nums w) = [].
Proof.
  induction page_nums as [|i l IH]; intros w; [reflexivity|].
  cbn [add_pages]. unfold pages_getitem.
  destruct (_ || _); [reflexivity|].
  destruct (nth_error _ _) as [p|]; [|reflexivity].
  rewrite bind_ret_l. apply IH.
Qed.

Lemma materialize_unfold output_path t a b :
  materialize open_ok r output_path t a b
  = (pdf_writer <- add_pages r (range a b) [] ;;
     write_pdf open_ok (section_path output_path t) pdf_writer ;;
     print ("Created: " ++ section_path output_path t)%string).
Proof. reflexivity. Qed.

Lemma materialize_pages_read output_path t a b content :
  add_pages r (range a b) [] = ret content ->
  open_ok (section_path output_path t) = true ->
  materialize open_ok r output_path t a b
  = ([Written (section_path output_path t) content;
      Printed ("Created: " ++ section_path output_path t)%string],
     Returned tt).
Proof.
  intros Hread Hopen. rewrite materialize_unfold, Hread, bind_ret_l.
  unfold write_pdf. rewrite Hopen. reflexivity.
Qed.

Lemma materialize_cases output_path t a b :
  (exists content,
      materialize open_ok r output_path t a b
      = ([Written (section_path output_path t) content;
          Printed ("Created: " ++ section_path output_path t)%string],
         Returned tt))
  \/ (exists e,
         materialize open_ok r output_path t a b = ([], Raised e)).
Proof.
  rewrite materialize_unfold.
  pose proof (add_pages_silent (range a b) []) as Hsilent.
  destruct (add_pages r (range a b) []) as [evs [content|e]];
    cbn [fst] in Hsilent; subst evs.
  - change (([] : list Event, Returned content)) with (ret content).
    rewrite bind_ret_l. unfold write_pdf.
    destruct (open_ok (section_path output_path t)).
    + left. now exists content.
    + right. now exists OSError.
  - right. now exists e.
Qed.

End Materialize.

Section Runs.

Variable open_ok : string -> bool.
Variable r : PdfReader.
Variable output_path : string.

Lemma well_ordered_bounds bookmarks :
  forall lo hi, well_ordered lo bookmarks hi = true -> lo <= hi.
Proof.
  induction bookmarks as [|[t a] rest IH]; intros lo hi H; cbn in H.
  - lia.
  - apply andb_prop in H as [H1 H2]. apply IH in H2. lia.
Qed.

Lemma written_paths_app e1 e2 :
  written_paths (e1 ++ e2) = written_paths e1 ++ written_paths e2.
Proof. apply flat_map_app. Qed.

(** A run that returns wrote one file per section, in order. *)
Lemma for_each_written_paths (l : list SectionRange) :
  forall events,
    for_each l (process_section open_ok r output_path false)
    = (events, Returned tt) ->
    written_paths events
    = map (fun s => section_path output_path (fst (fst s))) l.
Proof.
  induction l as [|[[t a] b] l IH]; intros events H.
  - cbn in H. injection H as <-. reflexivity.
  - cbn [for_each process_section] in H.
    destruct (materialize_cases open_ok r output_path t a b)
      as [(content & E) | (e & E)]; rewrite E in H.
    + unfold bind in H.
      destruct (for_each l _) as [evs out] eqn:El.
      injection H as <- ->.
      cbn [app written_paths flat_map map fst]. f_equal.
      exact (IH evs eq_refl).
    + discriminate H.
Qed.

Lemma filter_sections_titles (sel : string -> bool) T bookmarks :
  map (fun s : SectionRange => fst (fst s))
      (filter (fun s => sel (fst (fst s))) (sections T bookmarks))
  = map fst (filter (fun bm : Bookmark => sel (fst bm)) bookmarks).
Proof.
  induction bookmarks as [|[t a] rest IH]; [reflexivity|].
  cbn [sections filter fst]. destruct (sel t); cbn [map fst]; now rewrite IH.
Qed.

(** Whatever happens, the files written are those of the first sections. *)
Lemma for_each_written_prefix (l : list SectionRange) :
  exists k,
    written_paths
      (fst (for_each l (process_section open_ok r output_path false)))
    = firstn k (map (fun s => section_path output_path (fst (fst s))) l).
Proof.
  induction l as [|[[t a] b] l (k & IH)]; [now exists 0%nat|].
  cbn [for_each process_section].
  destruct (materialize_cases open_ok r output_path t a b)
    as [(content & E) | (e & E)]; rewrite E.
  - exists (S k). unfold bind.
    destruct (for_each l _) as [evs out]. cbn [fst] in *.
    cbn [app written_paths flat_map map fst firstn]. f_equal. exact IH.
  - now exists 0%nat.
Qed.

Lemma run_written_paths bookmarks key :
  snd (separate_by_bookmark open_ok r bookmarks key output_path false)
  = Returned tt ->
  written_paths
    (fst (separate_by_bookmark open_ok r bookmarks key output_path false))
  = map (fun bm => section_path output_path (fst bm))
        (filter (fun bm => selected key (fst bm)) bookmarks).
Proof.
  rewrite separate_by_bookmark_for_each.
  destruct (for_each _ _) as [events out] eqn:E. cbn [fst snd].
  intros ->. rewrite (for_each_written_paths _ E).
  rewrite <- (map_map (fun s : SectionRange => fst (fst s))
                      (section_path output_path)).
  rewrite filter_sections_titles. now rewrite map_map.
Qed.

(** ** The files after a run *)

Lemma for_each_ordered_events rest :
  (forall p, open_ok p = true) ->
  forall t a lo,
    0 <= lo ->
    well_ordered lo ((t, a) :: rest) (total_pages r) = true ->
    for_each (sections (total_pages r) ((t, a) :: rest))
             (process_section open_ok r output_path false)
    = (flat_map (materialize_events r output_path)
                (sections (total_pages r) ((t, a) :: rest)),
       Returned tt).
Proof.
  intros Hopen. induction rest as [|[t' b] rest IH]; intros t a lo Hlo H.
  - cbn in H. rewrite andb_true_iff in H. destruct H as [H1 H2].
    cbn [sections for_each process_section].
    rewrite (@materialize_pages_read open_ok r output_path t a
               (total_pages r) ([] ++ slice (pages r) a (total_pages r)))
      by (try apply Hopen;
          apply (@add_pages_inside r (Z.to_nat (total_pages r - a))); lia).
    reflexivity.
  - change (well_ordered lo ((t, a) :: (t', b) :: rest) (total_pages r))
      with ((lo <=? a) && well_ordered a ((t', b) :: rest) (total_pages r))
      in H.
    apply andb_prop in H as [H1 H2].
    assert (Hab : a <= b).
    { cbn [well_ordered] in H2. apply andb_prop in H2 as [H2 _]. lia. }
    assert (Hb : b <= total_pages r).
    { cbn [well_ordered] in H2. apply andb_prop in H2 as [_ H2].
      now apply well_ordered_bounds in H2. }
    specialize (IH t' b a ltac:(lia) H2).
    change (sections (total_pages r) ((t, a) :: (t', b) :: rest))
      with ((t, a, b) :: sections (total_pages r) ((t', b) :: rest)).
    cbn [for_each process_section flat_map]. rewrite IH.
    rewrite (@materialize_pages_read open_ok r output_path t a b
               ([] ++ slice (pages r) a b))
      by (try apply Hopen;
          apply (@add_pages_inside r (Z.to_nat (b - a))); lia).
    reflexivity.
Qed.

Lemma sections_slices (A : Type) (l : list A) T rest :
  forall t a lo,
    0 <= lo ->
    well_ordered lo ((t, a) :: rest) T = true ->
    flat_map (fun s : SectionRange => slice l (snd (fst s)) (snd s))
             (sections T ((t, a) :: rest))
    = slice l a T.
Proof.
  induction rest as [|[t' b] rest IH]; intros t a lo Hlo H.
  - cbn [sections flat_map fst snd]. apply app_nil_r.
  - change (well_ordered lo ((t, a) :: (t', b) :: rest) T)
      with ((lo <=? a) && well_ordered a ((t', b) :: rest) T) in H.
    apply andb_prop in H as [H1 H2].
    assert (Hab : a <= b).
    { cbn [well_ordered] in H2. apply andb_prop in H2 as [H2 _]. lia. }
    assert (Hb : b <= T).
    { cbn [well_ordered] in H2. apply andb_prop in H2 as [_ H2].
      now apply well_ordered_bounds in H2. }
    change (sections T ((t, a) :: (t', b) :: rest))
      with ((t, a, b) :: sections T ((t', b) :: rest)).
    cbn [flat_map fst snd]. rewrite (IH t' b a) by (assumption || lia).
    apply slice_app; lia.
Qed.

Lemma sections_titles T bookmarks :
  map (fun s : SectionRange => fst (fst s)) (sections T bookmarks)
  = map fst bookmarks.
Proof.
  induction bookmarks as [|[t a] rest IH]; [reflexivity|].
  cbn [sections map fst]. now rewrite IH.
Qed.

Lemma written_paths_materialize_events (l : list SectionRange) :
  written_paths (flat_map (materialize_events r output_path) l)
  = map (fun s => section_path output_path (fst (fst s))) l.
Proof.
  induction l as [|[[t a] b] l IH]; [reflexivity|].
  cbn [flat_map materialize_events app written_paths map fst]. f_equal.
  exact IH.
Qed.

Lemma file_after_absent events path :
  ~ In path (written_paths events) -> file_after events path = None.
Proof.
  induction events as [|e later IH]; intros Hnot; [reflexivity|].
  cbn [file_after]. destruct e as [line | p content].
  - rewrite IH; [reflexivity | exact Hnot].
  - cbn [written_paths flat_map app] in Hnot.
    rewrite IH by (intros Hin; apply Hnot; now right).
    destruct (String.eqb_spec p path) as [->|_]; [|reflexivity].
    elim Hnot. now left.
Qed.

Lemma file_after_materialized (l : list SectionRange) :
  NoDup (map (fun s : SectionRange => section_path output_path (fst (fst s)))
             l) ->
  forall s,
    In s l ->
    file_after (flat_map (materialize_events r output_path) l)
               (section_path output_path (fst (fst s)))
    = Some (slice (pages r) (snd (fst s)) (snd s)).
Proof.
  induction l as [|[[t a] b] l IH]; intros Hnd s Hin; [elim Hin|].
  cbn [map fst] in Hnd. apply NoDup_cons_iff in Hnd as [Hfresh Hnd].
  cbn [flat_map materialize_events app file_after].
  destruct Hin as [<- | Hin].
  - cbn [fst snd]. rewrite file_after_absent
      by now rewrite written_paths_materialize_events.
    now rewrite String.eqb_refl.
  - now rewrite (IH Hnd s Hin).
Qed.

Lemma flat_map_ext_in (A B : Type) (f g : A -> list B) (l : list A) :
  (forall x, In x l -> f x = g x) -> flat_map f l = flat_map g l.
Proof.
  induction l as [|x l IH]; intros H; [reflexivity|].
  cbn [flat_map]. rewrite (H x) by now left.
  rewrite IH; [reflexivity|]. intros y Hy. apply H. now right.
Qed.

Lemma flat_map_of_map (A B C : Type) (g : A -> B) (f : B -> list C) l :
  flat_map f (map g l) = flat_map (fun x => f (g x)) l.
Proof.
  induction l as [|x l IH]; [reflexivity|].
  cbn [map flat_map]. now rewrite IH.
Qed.

Lemma pages_read_back_sections (l : list SectionRange) :
  NoDup (map (fun s : SectionRange => section_path output_path (fst (fst s)))
             l) ->
  pages_read_back (flat_map (materialize_events r output_path) l)
                  output_path (map (fun s : SectionRange => fst (fst s)) l)
  = flat_map (fun s : SectionRange => slice (pages r) (snd (fst s)) (snd s))
             l.
Proof.
  intros Hnd. unfold pages_read_back. rewrite flat_map_of_map.
  apply flat_map_ext_in. intros s Hs.
  now rewrite (@file_after_materialized l Hnd s Hs).
Qed.

(** An ordered run whose sections go to different paths: one write per
    bookmark, and the files read back give the document from the first
    start page on. *)
Lemma run_files bookmarks :
  (forall p, open_ok p = true) ->
  well_ordered 0 bookmarks (total_pages r) = true ->
  NoDup (map (fun bm : Bookmark => section_path output_path (fst bm))
             bookmarks) ->
  snd (separate_by_bookmark open_ok r bookmarks EmptyString output_path false)
  = Returned tt
  /\ written_paths
       (fst (separate_by_bookmark open_ok r bookmarks EmptyString
                                  output_path false))
     = map (fun bm : Bookmark => section_path output_path (fst bm)) bookmarks
  /\ pages_read_back
       (fst (separate_by_bookmark open_ok r bookmarks EmptyString
                                  output_path false))
       output_path (map fst bookmarks)
     = match bookmarks with
       | [] => []
       | (_, a) :: _ => skipn (Z.to_nat a) (pages r)
       end.
Proof.
  intros Hopen Hord Hnd.
  assert (Hpaths :
            map (fun s : SectionRange =>
                   section_path output_path (fst (fst s)))
                (sections (total_pages r) bookmarks)
            = map (fun bm : Bookmark => section_path output_path (fst bm))
                  bookmarks).
  { rewrite <- (map_map (fun s : SectionRange => fst (fst s))
                        (section_path output_path)).
    rewrite sections_titles. now rewrite map_map. }
  assert (Hrun :
            separate_by_bookmark open_ok r bookmarks EmptyString
                                 output_path false
            = (flat_map (materialize_events r output_path)
                        (sections (total_pages r) bookmarks),
               Returned tt)).
  { rewrite separate_by_bookmark_for_each, filter_all
      by (intros x; apply selected_empty).
    destruct bookmarks as [|[t a] rest]; [reflexivity|].
    exact (@for_each_ordered_events rest Hopen t a 0 ltac:(lia) Hord). }
  rewrite Hrun. cbn [fst snd]. split; [reflexivity|]. split.
  - now rewrite written_paths_materialize_events.
  - rewrite <- (sections_titles (total_pages r) bookmarks).
    rewrite pages_read_back_sections by now rewrite Hpaths.
    destruct bookmarks as [|[t a] rest]; [reflexivity|].
    etransitivity;
      [exact (@sections_slices Page (pages r) (total_pages r) rest t a 0
                ltac:(lia) Hord)|].
    apply slice_to_end.
    cbn [well_ordered] in Hord. apply andb_prop in Hord as [H _]. lia.
Qed.

End Runs.

(** X12: when the range of a section lies in the document
    ([0 <= start] and [end <= len(pages)]) and the file can be opened, the
    section is written with exactly the pages [start .. end - 1], in
    order, and the path is reported. *)
Theorem materialize_writes_the_range
        (open_ok : string -> bool) (r : PdfReader)
        (output_path t : string) (a b : Z) :
  0 <= a -> b <= total_pages r ->
  open_ok (section_path output_path t) = true ->
  materialize open_ok r output_path t a b
  = ([Written (section_path output_path t) (slice (pages r) a b);
      Printed ("Created: " ++ section_path output_path t)%string],
     Returned tt).
Proof.
  intros Ha Hb Hopen. apply materialize_pages_read; [|exact Hopen].
  now apply (@add_pages_inside r (Z.to_nat (b - a))).
Qed.

(** X13: a section whose end page is not after its start page is written
    as a document with no page; no page is read, so nothing is raised even
    when the start page is outside the document. *)
Theorem materialize_empty_range
        (open_ok : string -> bool) (r : PdfReader)
        (output_path t : string) (a b : Z) :
  b <= a ->
  open_ok (section_path output_path t) = true ->
  materialize open_ok r output_path t a b
  = ([Written (section_path output_path t) [];
      Printed ("Created: " ++ section_path output_path t)%string],
     Returned tt).
Proof.
  intros Hba Hopen. apply materialize_pages_read; [|exact Hopen].
  now rewrite range_nil.
Qed.

(** X14: a section that is not empty and ends after the last page of the
    document raises [IndexError]; no file is written for it and nothing is
    printed. *)
Theorem materialize_past_the_end
        (open_ok : string -> bool) (r : PdfReader)
        (output_path t : string) (a b : Z) :
  0 <= a < b -> total_pages r < b ->
  materialize open_ok r output_path t a b = ([], Raised IndexError).
Proof.
  intros Ha Hb. rewrite materialize_unfold.
  rewrite (@add_pages_beyond r (Z.to_nat (b - a))) by lia.
  reflexivity.
Qed.

(** X16: when the start pages never decrease, the first is not negative
    and the last is at most the number of pages, every file can be opened
    and no two bookmarks are written to the same path, a run with no key
    returns, each bookmark is written once to a path of its own, and the
    files, read back after the run in the order of the bookmarks, hold the
    pages of the document from the start page of the first bookmark on:
    none is lost, repeated or moved. *)
Theorem separate_by_bookmark_partitions_the_document
        (open_ok : string -> bool) (r : PdfReader)
        (bookmarks : list Bookmark) (output_path : string) :
  (forall p, open_ok p = true) ->
  well_ordered 0 bookmarks (total_pages r) = true ->
  NoDup (map (fun bm : Bookmark => section_path output_path (fst bm))
             bookmarks) ->
  snd (separate_by_bookmark open_ok r bookmarks EmptyString output_path false)
  = Returned tt
  /\ written_paths
       (fst (separate_by_bookmark open_ok r bookmarks EmptyString
                                  output_path false))
     = map (fun bm : Bookmark => section_path output_path (fst bm)) bookmarks
  /\ pages_read_back
       (fst (separate_by_bookmark open_ok r bookmarks EmptyString
                                  output_path false))
       output_path (map fst bookmarks)
     = match bookmarks with
       | [] => []
       | (_, a) :: _ => skipn (Z.to_nat a) (pages r)
       end.
Proof. apply run_files. Qed.

(** X17: the files written are always those of the first bookmarks that
    passed the filter, in the order of the list, each at the path of its
    title; a run that returns has written one for every such bookmark.
    Two bookmarks whose titles give the same file name are written to the
    same path, the later one last. *)
Theorem separate_by_bookmark_written_paths
        (open_ok : string -> bool) (r : PdfReader)
        (bookmarks : list Bookmark) (key output_path : string) :
  (exists k,
      written_paths
        (fst (separate_by_bookmark open_ok r bookmarks key output_path false))
      = firstn k (map (fun bm => section_path output_path (fst bm))
                      (filter (fun bm => selected key (fst bm)) bookmarks)))
  /\ (snd (separate_by_bookmark open_ok r bookmarks key output_path false)
      = Returned tt ->
      written_paths
        (fst (separate_by_bookmark open_ok r bookmarks key output_path false))
      = map (fun bm => section_path output_path (fst bm))
            (filter (fun bm => selected key (fst bm)) bookmarks)).
Proof.
  split; [|apply run_written_paths].
  rewrite separate_by_bookmark_for_each.
  destruct (for_each_written_prefix open_ok r output_path
              (filter (fun s => selected key (fst (fst s)))
                      (sections (total_pages r) bookmarks))) as (k & Hk).
  exists k. etransitivity; [exact Hk|]. f_equal.
  rewrite <- (map_map (fun s : SectionRange => fst (fst s))
                      (section_path output_path)).
  rewrite filter_sections_titles. now rewrite map_map.
Qed.


(* ===================================================================== *)
(** * The driver *)
(* ===================================================================== *)

Section Driver.

Variable w : World.

Lemma split_document_unfold args r outlines :
  read_pdf w (arg_pdf_path args) = (r, outlines) ->
  split_document w args
  = separate_by_bookmark (can_open w) r
      (get_bookmarks r outlines [] (arg_depth args))
      (arg_key args) (arg_output args) (arg_mock args).
Proof. intros H. unfold split_document. now rewrite H. Qed.

Lemma written_paths_reports (l : list SectionRange) :
  written_paths (flat_map report_events l) = [].
Proof.
  induction l as [|[[t a] b] l IH]; [reflexivity|].
  cbn [flat_map]. rewrite written_paths_app, IH. reflexivity.
Qed.

Lemma filter_selected_empty (bookmarks : list Bookmark) :
  filter (fun bm => selected EmptyString (fst bm)) bookmarks = bookmarks.
Proof. apply filter_all. intros x. apply selected_empty. Qed.

End Driver.

(** X20: a mock run is not entirely without effect: when the output
    directory is given and missing, [main] creates it before the loop,
    although the loop then only prints and writes no file into it. *)
Theorem main_mock_creates_output_directory (w : World) (args : Args) :
  isfile w (arg_pdf_path args) = true ->
  arg_output args <> EmptyString ->
  isdir w (arg_output args) = false ->
  makedirs_ok w (arg_output args) = true ->
  arg_mock args = true ->
  exists events,
    main w args = (MakeDirs (arg_output args) :: map Out events, Returned tt)
    /\ written_paths events = [].
Proof.
  intros Hfile Hout Hdir Hmk Hmock. unfold main.
  rewrite Hfile, Hdir, Hmk. cbn [negb andb].
  destruct (arg_output args) as [|c out] eqn:Eout; [now elim Hout|].
  cbn [truthy].
  destruct (read_pdf w (arg_pdf_path args)) as [r outlines] eqn:Eread.
  rewrite (split_document_unfold w args Eread), Hmock.
  rewrite separate_by_bookmark_for_each, for_each_report.
  eexists. split; [reflexivity|]. apply written_paths_reports.
Qed.

(** X21: with the default options (every level, no key, current
    directory, no mock), when the pages of the leaves of the outline never
    decrease in document order and lie in the document, every file can be
    opened and no two leaves have the same file name, [main] returns,
    creates no directory, writes one file per leaf of the outline, named
    after its title, and the files, read back after the run in the order
    of the leaves, hold the pages of the document from the page of the
    first leaf on. *)
Theorem main_default_run
        (w : World) (p : string) (r : PdfReader) (outlines : list Outline) :
  isfile w p = true ->
  read_pdf w p = (r, outlines) ->
  (forall q, can_open w q = true) ->
  well_ordered 0 (map (bookmark_of r) (all_leaves outlines)) (total_pages r)
  = true ->
  NoDup (map (fun d => output_file_name (title d)) (all_leaves outlines)) ->
  exists events,
    main w (default_args p) = (map Out events, Returned tt)
    /\ written_paths events
       = map (fun d => output_file_name (title d)) (all_leaves outlines)
    /\ pages_read_back events EmptyString (map title (all_leaves outlines))
       = match all_leaves outlines with
         | [] => []
         | d :: _ => skipn (Z.to_nat (get_destination_page_number r d))
                           (pages r)
         end.
Proof.
  intros Hfile Hread Hopen Hord Hnd. unfold main, default_args.
  cbn [arg_pdf_path arg_output arg_mock arg_key arg_depth].
  rewrite Hfile. cbn [negb truthy andb].
  rewrite (@split_document_unfold w (mkArgs false (-1) EmptyString
                                            EmptyString p) r outlines Hread).
  cbn [arg_pdf_path arg_output arg_mock arg_key arg_depth].
  rewrite get_bookmarks_all_leaves.
  set (bookmarks := map (bookmark_of r) (all_leaves outlines)) in *.
  assert (Hnames :
            map (fun bm : Bookmark => section_path EmptyString (fst bm))
                bookmarks
            = map (fun d => output_file_name (title d))
                  (all_leaves outlines)).
  { subst bookmarks. rewrite map_map. reflexivity. }
  assert (Htitles : map fst bookmarks = map title (all_leaves outlines)).
  { subst bookmarks. rewrite map_map. reflexivity. }
  destruct (@run_files (can_open w) r EmptyString bookmarks Hopen Hord)
    as (Hret & Hpaths & Hpages).
  { rewrite Hnames. exact Hnd. }
  destruct (separate_by_bookmark _ _ _ _ _ _) as [events out].
  cbn [fst snd] in *. subst out. exists events.
  rewrite andb_false_r.
  split; [reflexivity|]. split.
  - rewrite Hpaths. exact Hnames.
  - rewrite <- Htitles, Hpages. subst bookmarks.
    destruct (all_leaves outlines); reflexivity.
Qed.

(* ===================================================================== *)
(** * The further properties on the sample documents *)
(* ===================================================================== *)

Lemma get_bookmarks_flat_outline_witness :
  forallb is_leaf [Leaf intro; Leaf chap1; Leaf chap2] = true
  /\ get_bookmarks sample_reader [Leaf intro; Leaf chap1; Leaf chap2] [] 1
     = [].
Proof.
  split; [reflexivity|].
  apply (@get_bookmarks_flat_outline
           sample_reader [Leaf intro; Leaf chap1; Leaf chap2] [] 1).
  reflexivity.
Defined.

Lemma sanitize_file_name_clean_witness :
  clean "-" = true
  /\ clean (sanitize_file_name "a b/c" "-" (Some 4)) = true.
Proof.
  split; [reflexivity|].
  apply (@sanitize_file_name_clean "a b/c" "-" (Some 4)). reflexivity.
Defined.

Lemma sanitize_file_name_max_length_witness :
  0 <= 3
  /\ Z.of_nat (String.length (sanitize_file_name "a b/c" "_" (Some 3)))
     = Z.min 3 (Z.of_nat (String.length (sanitize_file_name "a b/c" "_" None))).
Proof.
  split; [lia|].
  apply (@sanitize_file_name_max_length "a b/c" "_" 3); [reflexivity | lia].
Defined.

Lemma sanitize_file_name_negative_max_length_witness :
  -2 < 0
  /\ Z.of_nat (String.length (sanitize_file_name "a b/c" "_" (Some (-2))))
     = Z.max 0 (Z.of_nat (String.length (sanitize_file_name "a b/c" "_" None))
                + -2).
Proof.
  split; [lia|].
  apply (@sanitize_file_name_negative_max_length "a b/c" "_" (-2));
    [reflexivity | lia].
Defined.

Lemma sanitize_file_name_idempotent_witness :
  clean "-" = true
  /\ 0 <= 4
  /\ sanitize_file_name (sanitize_file_name "a b/c d" "-" (Some 4))
                        "-" (Some 4)
     = sanitize_file_name "a b/c d" "-" (Some 4).
Proof.
  split; [reflexivity|]. split; [lia|].
  apply (@sanitize_file_name_idempotent "a b/c d" "-" (Some 4)).
  - reflexivity.
  - cbv beta iota. lia.
Defined.

Lemma materialize_writes_the_range_witness :
  0 <= 3 /\ 10 <= total_pages sample_reader
  /\ materialize always_open sample_reader "out" "Chapter 1" 3 10
     = ([Written "out/Chapter_1.pdf" (slice (pages sample_reader) 3 10);
         Printed "Created: out/Chapter_1.pdf"],
        Returned tt).
Proof.
  split; [lia|]. split; [vm_compute; discriminate|].
  apply (@materialize_writes_the_range
           always_open sample_reader "out" "Chapter 1" 3 10).
  - lia.
  - vm_compute. discriminate.
  - reflexivity.
Defined.

Lemma materialize_empty_range_witness :
  3 <= 20
  /\ materialize always_open sample_reader "out" "Chapter 1" 20 3
     = ([Written "out/Chapter_1.pdf" [];
         Printed "Created: out/Chapter_1.pdf"],
        Returned tt).
Proof.
  split; [lia|].
  apply (@materialize_empty_range
           always_open sample_reader "out" "Chapter 1" 20 3).
  - lia.
  - reflexivity.
Defined.

Lemma materialize_past_the_end_witness :
  0 <= 10 < 16 /\ total_pages sample_reader < 16
  /\ materialize always_open sample_reader "out" "Chapter 2" 10 16
     = ([], Raised IndexError).
Proof.
  split; [lia|]. split; [reflexivity|].
  apply (@materialize_past_the_end
           always_open sample_reader "out" "Chapter 2" 10 16).
  - lia.
  - reflexivity.
Defined.

Lemma separate_by_bookmark_partitions_the_document_witness :
  well_ordered 0 sample_bookmarks (total_pages sample_reader) = true
  /\ pages_read_back
       (fst (separate_by_bookmark always_open sample_reader sample_bookmarks
                                  EmptyString "out" false))
       "out" (map fst sample_bookmarks)
     = skipn (Z.to_nat 0) (pages sample_reader).
Proof.
  split; [reflexivity|].
  apply (@separate_by_bookmark_partitions_the_document
           always_open sample_reader sample_bookmarks "out").
  - intros p. reflexivity.
  - reflexivity.
  - repeat (apply NoDup_cons;
            [cbn; intros H;
             repeat (destruct H as [H | H]; [discriminate H|]); exact H|]).
    apply NoDup_nil.
Defined.

Lemma main_mock_creates_output_directory_witness :
  exists events,
    main sample_world (mkArgs true (-1) "Chapter" "out" "book.pdf")
    = (MakeDirs "out" :: map Out events, Returned tt)
    /\ written_paths events = [].
Proof.
  apply (@main_mock_creates_output_directory
           sample_world (mkArgs true (-1) "Chapter" "out" "book.pdf")).
  - reflexivity.
  - discriminate.
  - reflexivity.
  - reflexivity.
  - reflexivity.
Defined.

Lemma main_default_run_witness :
  exists events,
    main sample_world (default_args "book.pdf")
    = (map Out events, Returned tt)
    /\ written_paths events
       = map (fun d => output_file_name (title d)) (all_leaves sample_outlines)
    /\ pages_read_back events EmptyString
                       (map title (all_leaves sample_outlines))
       = skipn (Z.to_nat 0) (pages sample_reader).
Proof.
  apply (@main_default_run
           sample_world "book.pdf" sample_reader sample_outlines).
  - reflexivity.
  - reflexivity.
  - intros q. reflexivity.
  - reflexivity.
  - repeat (apply NoDup_cons;
            [cbn; intros H;
             repeat (destruct H as [H | H]; [discriminate H|]); exact H|]).
    apply NoDup_nil.
Defined.
